(** * SGAD auth service: login, token service, permission evaluator, gates

    A shallow embedding of [src/services/authService.js] (loginUser,
    verifyToken, generateJWT, refreshToken, validatePermissions), of the
    three auth queries of [src/config/database.js] and of the gates of
    [src/middleware/authMiddleware.js] (requireRole, requireSelfOrAdmin),
    followed by the properties the specification states about them.
    Around that core: the other two gates of the middleware (requireAuth,
    optionalAuth), logoutUser, the controllers of
    [src/controllers/authcontroller.js] and the two guarded routes of
    [src/routes/authRoutes.js], the validators of [src/utils/validation.js]
    (their patterns as regular expressions matched by derivatives) and the
    argument handling of [src/utils/generateToken.js], each with the
    properties its code shows.

    Modelling conventions
    - JavaScript values are the type [JS.value]; plain objects are
      association lists in insertion order, read through [JS.get], which
      falls back to the members every plain object inherits from
      [Object.prototype].
    - A thrown [Error] is a record of its [name] and [message]; a function that
      may throw returns an [outcome].
    - The users table and the failures of the connection pool are an explicit
      state [Database.Db] threaded through the [async] functions.
    - [Date.now()] is an argument ([now], in milliseconds).
    - [jsonwebtoken] is modelled as an ideal MAC: a token passes the
      signature check under a secret iff it was signed under that secret;
      the checks of the [nbf] and [exp] claims follow. *)

From Stdlib Require Import ZArith List Bool Ascii String Lia.
From Stdlib Require Import DecimalString.
Import ListNotations.

Local Open Scope string_scope.
Local Open Scope Z_scope.

(* ------------------------------------------------------------------ *)
(** ** JavaScript values, objects and errors *)

Module JS.

(** The values that flow through the service.  [JObject r] is an object or a
    function that is not a plain data value (the members inherited from
    [Object.prototype]); [r] is the string [ToPrimitive] yields for it, which
    also identifies it. *)
Inductive value : Type :=
| JUndefined
| JNull
| JBool (b : bool)
| JNum (n : Z)
| JStr (s : string)
| JObject (r : string).

Definition value_eq_dec (a b : value) : {a = b} + {a <> b}.
Proof.
  decide equality; auto using Bool.bool_dec, Z.eq_dec, string_dec.
Defined.

(** [a === b] on these values (no NaN among them). *)
Definition strict_eq (a b : value) : bool :=
  if value_eq_dec a b then true else false.

(** ToBoolean. *)
Definition truthy (v : value) : bool :=
  match v with
  | JUndefined | JNull => false
  | JBool b => b
  | JNum n => negb (n =? 0)
  | JStr s => negb (String.eqb s "")
  | JObject _ => true
  end.

(** [a || b]. *)
Definition or_else (a b : value) : value := if truthy a then a else b.

Definition string_of_Z (n : Z) : string := NilZero.string_of_int (Z.to_int n).

(** ToString, as used for property keys and by [Array.prototype.join]. *)
Definition to_string (v : value) : string :=
  match v with
  | JUndefined => "undefined"
  | JNull => "null"
  | JBool true => "true"
  | JBool false => "false"
  | JNum n => string_of_Z n
  | JStr s => s
  | JObject r => r
  end.

(** A plain object: own enumerable properties in insertion order. *)
Definition object : Type := list (string * value).

Fixpoint own (o : object) (k : string) : option value :=
  match o with
  | [] => None
  | (k', v) :: rest => if String.eqb k' k then Some v else own rest k
  end.

Definition native (fname : string) : value :=
  JObject ("function " ++ fname ++ "() { [native code] }").

(** What a plain object inherits from [Object.prototype] (Node 18). *)
Definition Object_prototype (k : string) : option value :=
  if String.eqb k "constructor" then Some (native "Object")
  else if String.eqb k "__proto__" then Some (JObject "[object Object]")
  else if existsb (String.eqb k)
       [ "hasOwnProperty"; "isPrototypeOf"; "propertyIsEnumerable";
         "toLocaleString"; "toString"; "valueOf";
         "__defineGetter__"; "__defineSetter__";
         "__lookupGetter__"; "__lookupSetter__" ]
  then Some (native k)
  else None.

(** [o[k]] and [o.k]: own property first, then the prototype. *)
Definition get (o : object) (k : string) : value :=
  match own o k with
  | Some v => v
  | None =>
      match Object_prototype k with
      | Some v => v
      | None => JUndefined
      end
  end.

(** [o[k] = v]: overwrite in place, or append. *)
Fixpoint set (o : object) (k : string) (v : value) : object :=
  match o with
  | [] => [(k, v)]
  | (k', v') :: rest =>
      if String.eqb k' k then (k', v) :: rest else (k', v') :: set rest k v
  end.

Definition keys (o : object) : list string := map fst o.

(** [JSON.parse(JSON.stringify(o))]: members whose value is [undefined] or a
    function are dropped. *)
Definition json_roundtrip (o : object) : object :=
  filter (fun kv => match snd kv with
                    | JUndefined | JObject _ => false
                    | _ => true
                    end) o.

(** [a >= b] (abstract relational comparison).  Two objects are compared
    through their string renderings; an object against a number converts the
    rendering to a number, and none of the renderings above is a numeric
    literal, so the comparison sees NaN.  Strings that are plain data never
    reach this operator in the service. *)
Definition ge (a b : value) : bool :=
  match a, b with
  | JNum x, JNum y => y <=? x
  | JObject r, JObject s => negb (String.ltb r s)
  | _, _ => false
  end.

(** [arr.includes(v)] (SameValueZero). *)
Definition includes (arr : list value) (v : value) : bool :=
  existsb (strict_eq v) arr.

(** [arr.join(sep)]: [undefined] and [null] render as the empty string. *)
Definition join_item (v : value) : string :=
  match v with
  | JUndefined | JNull => ""
  | _ => to_string v
  end.

Fixpoint join (sep : string) (arr : list value) : string :=
  match arr with
  | [] => ""
  | [v] => join_item v
  | v :: rest => join_item v ++ sep ++ join sep rest
  end.

Definition lower_ascii (c : ascii) : ascii :=
  let n := nat_of_ascii c in
  if andb (Nat.leb 65 n) (Nat.leb n 90) then ascii_of_nat (n + 32) else c.

(** [s.toLowerCase()], on the ASCII letters. *)
Fixpoint toLowerCase (s : string) : string :=
  match s with
  | EmptyString => EmptyString
  | String c rest => String (lower_ascii c) (toLowerCase rest)
  end.

Definition is_space (c : ascii) : bool :=
  let n := nat_of_ascii c in
  orb (Nat.eqb n 32) (andb (Nat.leb 9 n) (Nat.leb n 13)).

Fixpoint trim_start (s : string) : string :=
  match s with
  | EmptyString => EmptyString
  | String c rest => if is_space c then trim_start rest else s
  end.

Fixpoint trim_end (s : string) : string :=
  match s with
  | EmptyString => EmptyString
  | String c rest =>
      match trim_end rest with
      | EmptyString => if is_space c then EmptyString else String c EmptyString
      | r => String c r
      end
  end.

(** [s.trim()], on the ASCII white space. *)
Definition trim (s : string) : string := trim_end (trim_start s).

(** A thrown [Error]: what the [catch] blocks look at. *)
Record error : Type := mk_error { name : string; message : string }.

(** [new Error(msg)]. *)
Definition Error (msg : string) : error := mk_error "Error" msg.

Inductive outcome (A : Type) : Type :=
| Return (a : A)
| Throw (e : error).
Arguments Return {A} a.
Arguments Throw {A} e.

End JS.

Import JS.

(* ------------------------------------------------------------------ *)
(** ** jsonwebtoken *)

Module Jwt.

(** A bearer string is either a JWT, determined by the secret its signature
    was computed under and by its JSON payload, or something that does not
    parse as one. *)
Inductive token : Type :=
| Signed (key : string) (payload : object)
| Malformed (raw : string).

Record sign_options : Type := mk_sign_options {
  expiresIn : Z;          (* seconds, as [timespan] reads the setting *)
  issuer : string;
  audience : string
}.

(** [jwt.sign(payload, secret, options)]: [exp] counts from [payload.iat]
    (from the clock when that is missing), then [aud] and [iss] are set. *)
Definition sign (payload : object) (secret : string) (opts : sign_options)
    (now : Z) : token :=
  let timestamp :=
    match or_else (get payload "iat") (JNum (now / 1000)) with
    | JNum t => t
    | _ => now / 1000
    end in
  let p1 := set payload "exp" (JNum (timestamp + expiresIn opts)) in
  let p2 := set p1 "aud" (JStr (audience opts)) in
  let p3 := set p2 "iss" (JStr (issuer opts)) in
  Signed secret (json_roundtrip p3).

Definition JsonWebTokenError (msg : string) : error :=
  mk_error "JsonWebTokenError" msg.
Definition TokenExpiredError (msg : string) : error :=
  mk_error "TokenExpiredError" msg.
Definition NotBeforeError (msg : string) : error :=
  mk_error "NotBeforeError" msg.

(** The expiry check of [jwt.verify], skipped under [ignoreExpiration]. *)
Definition check_exp (payload : object) (ignoreExpiration : bool)
    (clockTimestamp : Z) : outcome object :=
  match get payload "exp" with
  | JUndefined => Return payload
  | e =>
      if ignoreExpiration then Return payload
      else
        match e with
        | JNum e =>
            if e <=? clockTimestamp
            then Throw (TokenExpiredError "jwt expired")
            else Return payload
        | _ => Throw (JsonWebTokenError "invalid exp value")
        end
  end.

(** [jwt.verify(token, secret, { ignoreExpiration })]: the signature, then
    the [nbf] claim when the payload has one ([ignoreExpiration] does not
    switch that check off), then the expiry.  No issuer or audience is asked
    for by the callers, so none is checked. *)
Definition verify (t : token) (secret : string) (ignoreExpiration : bool)
    (now : Z) : outcome object :=
  let clockTimestamp := now / 1000 in
  match t with
  | Malformed _ => Throw (JsonWebTokenError "jwt malformed")
  | Signed key payload =>
      if negb (String.eqb key secret)
      then Throw (JsonWebTokenError "invalid signature")
      else
        match get payload "nbf" with
        | JUndefined => check_exp payload ignoreExpiration clockTimestamp
        | JNum nbf =>
            if clockTimestamp <? nbf
            then Throw (NotBeforeError "jwt not active")
            else check_exp payload ignoreExpiration clockTimestamp
        | _ => Throw (JsonWebTokenError "invalid nbf value")
        end
  end.

End Jwt.

(* ------------------------------------------------------------------ *)
(** ** config/database.js *)

Module Database.

(** A row of the [users] table, with the columns the queries name. *)
Record user_row : Type := mk_user {
  id : value;
  email : string;
  password_hash : string;
  role : string;
  first_name : value;
  last_name : value;
  phone : value;
  is_active : bool;
  created_at : Z;
  updated_at : Z
}.

(** The table, and the fate of the coming calls of [pool.query]: one entry is
    consumed per query, [true] makes that query reject; past the end every
    query goes through. *)
Record Db : Type := mk_db {
  users : list user_row;
  faults : list bool
}.

(** An [async] function over the database. *)
Definition M (A : Type) : Type := Db -> outcome A * Db.

Definition ret {A} (a : A) : M A := fun db => (Return a, db).
Definition throw {A} (e : error) : M A := fun db => (Throw e, db).
Definition bind {A B} (m : M A) (k : A -> M B) : M B :=
  fun db =>
    match m db with
    | (Return a, db') => k a db'
    | (Throw e, db') => (Throw e, db')
    end.
Definition try_catch {A} (body : M A) (handler : error -> M A) : M A :=
  fun db =>
    match body db with
    | (Return a, db') => (Return a, db')
    | (Throw e, db') => handler e db'
    end.
Definition lift {A} (r : outcome A) : M A := fun db => (r, db).

Definition pool_error : error := Error "Connection terminated unexpectedly".

(** [query(text, params)]: runs the statement [run] on the table, or rethrows
    the rejection of the pool. *)
Definition query {A} (run : list user_row -> A * list user_row) : M A :=
  fun db =>
    match faults db with
    | true :: later => (Throw pool_error, mk_db (users db) later)
    | false :: later =>
        let (a, rows) := run (users db) in (Return a, mk_db rows later)
    | [] => let (a, rows) := run (users db) in (Return a, mk_db rows [])
    end.

(** [col = $1], for a parameter of the JavaScript type the driver renders the
    column in: a parameter that is [undefined] or [null] is sent as NULL and
    matches nothing, and no column holds a function.  PostgreSQL converts a
    parameter of another type to the type of the column, so that the number
    42 finds the text id ['42'] as well; that conversion is not part of
    this comparison.  A row found here is found by PostgreSQL; a row missed
    here is missed by PostgreSQL when the parameter is a value of the
    column. *)
Definition sql_eq (col param : value) : bool :=
  match param with
  | JUndefined | JNull | JObject _ => false
  | _ => strict_eq col param
  end.

(** [WHERE email = $1 AND is_active = true]. *)
Definition by_email_active (email' : string) (u : user_row) : bool :=
  String.eqb (email u) email' && is_active u.

(** [WHERE id = $1 AND is_active = true]. *)
Definition by_id_active (userId : value) (u : user_row) : bool :=
  sql_eq (id u) userId && is_active u.

(** The row object of [SELECT id, email, password_hash, role, first_name,
    last_name, phone, is_active, created_at]. *)
Definition row_by_email (u : user_row) : object :=
  [ ("id", id u); ("email", JStr (email u));
    ("password_hash", JStr (password_hash u)); ("role", JStr (role u));
    ("first_name", first_name u); ("last_name", last_name u);
    ("phone", phone u); ("is_active", JBool (is_active u));
    ("created_at", JNum (created_at u)) ].

(** The row object of [SELECT id, email, role, first_name, last_name, phone,
    is_active]. *)
Definition row_by_id (u : user_row) : object :=
  [ ("id", id u); ("email", JStr (email u)); ("role", JStr (role u));
    ("first_name", first_name u); ("last_name", last_name u);
    ("phone", phone u); ("is_active", JBool (is_active u)) ].

(** [result.rows[0] || null] of the query by email. *)
Definition findUserByEmail (email' : string) : M (option object) :=
  query (fun rows =>
    (option_map row_by_email (find (by_email_active email') rows), rows)).

(** [result.rows[0] || null] of the query by id. *)
Definition findUserById (userId : value) : M (option object) :=
  query (fun rows =>
    (option_map row_by_id (find (by_id_active userId) rows), rows)).

Definition touch (now : Z) (u : user_row) : user_row :=
  mk_user (id u) (email u) (password_hash u) (role u) (first_name u)
          (last_name u) (phone u) (is_active u) (created_at u) now.

(** [UPDATE users SET updated_at = CURRENT_TIMESTAMP WHERE id = $1]. *)
Definition updateLastLogin (userId : value) (now : Z) : M unit :=
  query (fun rows =>
    (tt, map (fun u => if sql_eq (id u) userId then touch now u else u) rows)).

End Database.

Import Database.

Declare Scope db_scope.
Delimit Scope db_scope with db.
Notation "x <- m ;; k" := (bind m (fun x => k))
  (at level 61, m at next level, right associativity) : db_scope.
Notation "m ;;; k" := (bind m (fun _ => k))
  (at level 61, right associativity) : db_scope.

(* ------------------------------------------------------------------ *)
(** ** services/authService.js *)

Module AuthService.

Record login_result : Type := mk_login_result {
  login_success : bool;
  login_user : object;
  login_token : Jwt.token;
  login_expiresIn : string
}.

Record verify_result : Type := mk_verify_result {
  verify_success : bool;
  verify_user : object;
  tokenValid : bool
}.

Record refresh_result : Type := mk_refresh_result {
  refresh_success : bool;
  refresh_token : Jwt.token;
  refresh_expiresIn : string
}.

Section Config.

(** [process.env.JWT_SECRET], [process.env.JWT_EXPIRES_IN || '24h'], the
    number of seconds [jsonwebtoken] reads the latter as (86400 for ['24h']),
    and [bcrypt.compare] on two strings. *)
Variable JWT_SECRET : string.
Variable JWT_EXPIRES_IN : string.
Variable lifetime : Z.
Variable bcrypt_compare : string -> string -> bool.

Definition bcrypt_compare_values (data : string) (hash : value) : M bool :=
  match hash with
  | JStr h => ret (bcrypt_compare data h)
  | _ => throw (Error "data and hash must be strings")
  end.

Definition generateJWT (user : object) (now : Z) : Jwt.token :=
  let payload :=
    [ ("userId", get user "id");
      ("email", get user "email");
      ("role", get user "role");
      ("refereeId", get user "referee_id");
      ("iat", JNum (now / 1000)) ] in
  Jwt.sign payload JWT_SECRET
    (Jwt.mk_sign_options lifetime "sgad-auth-service" "sgad-system") now.

Definition loginUser (email password : string) (now : Z) : M login_result :=
  try_catch
    (user <- findUserByEmail (trim (toLowerCase email)) ;;
     match user with
     | None => throw (Error "INVALID_CREDENTIALS")
     | Some user =>
         isValidPassword <-
           bcrypt_compare_values password (get user "password_hash") ;;
         if negb isValidPassword then throw (Error "INVALID_CREDENTIALS")
         else if negb (truthy (get user "is_active"))
         then throw (Error "USER_INACTIVE")
         else
           updateLastLogin (get user "id") now ;;;
           let token := generateJWT user now in
           let userData :=
             [ ("id", get user "id");
               ("email", get user "email");
               ("role", get user "role");
               ("firstName", get user "first_name");
               ("lastName", get user "last_name");
               ("phone", get user "phone");
               ("refereeId", get user "referee_id");
               ("licenseNumber", get user "license_number");
               ("specialties", get user "specialties");
               ("certificationLevel", get user "certification_level") ] in
           ret (mk_login_result true userData token JWT_EXPIRES_IN)
     end)%db
    (fun error =>
       if String.eqb (message error) "INVALID_CREDENTIALS"
       then throw (Error "Email o contraseña incorrectos")
       else if String.eqb (message error) "USER_INACTIVE"
       then throw (Error "Usuario inactivo. Contacta al administrador")
       else throw (Error "Error al procesar el login")).

Definition verifyToken (token : Jwt.token) (now : Z) : M verify_result :=
  try_catch
    (decoded <- lift (Jwt.verify token JWT_SECRET false now) ;;
     user <- findUserById (get decoded "userId") ;;
     match user with
     | None => throw (Error "USER_NOT_FOUND")
     | Some user =>
         if negb (truthy (get user "is_active"))
         then throw (Error "USER_INACTIVE")
         else
           let userData :=
             [ ("id", get user "id");
               ("email", get user "email");
               ("role", get user "role");
               ("firstName", get user "first_name");
               ("lastName", get user "last_name");
               ("phone", get user "phone");
               ("refereeId", get user "referee_id");
               ("licenseNumber", get user "license_number");
               ("specialties", get user "specialties") ] in
           ret (mk_verify_result true userData true)
     end)%db
    (fun error =>
       if String.eqb (name error) "JsonWebTokenError"
       then throw (Error "Token inválido")
       else if String.eqb (name error) "TokenExpiredError"
       then throw (Error "Token expirado")
       else if String.eqb (message error) "USER_NOT_FOUND"
       then throw (Error "Usuario no encontrado")
       else if String.eqb (message error) "USER_INACTIVE"
       then throw (Error "Usuario inactivo")
       else throw (Error "Error al verificar el token")).

Definition refreshToken (token : Jwt.token) (now : Z) : M refresh_result :=
  try_catch
    (decoded <- lift (Jwt.verify token JWT_SECRET true now) ;;
     user <- findUserById (get decoded "userId") ;;
     match user with
     | None => throw (Error "Usuario no válido para refresh")
     | Some user =>
         if negb (truthy (get user "is_active"))
         then throw (Error "Usuario no válido para refresh")
         else
           let newToken := generateJWT user now in
           ret (mk_refresh_result true newToken JWT_EXPIRES_IN)
     end)%db
    (fun error => throw (Error "Error al refrescar el token")).

End Config.

Definition roleHierarchy : object :=
  [ ("presidente", JNum 3); ("administrador", JNum 2); ("arbitro", JNum 1) ].

Definition validatePermissions (user : object) (requiredRole : value) : bool :=
  let userLevel :=
    or_else (get roleHierarchy (to_string (get user "role"))) (JNum 0) in
  let requiredLevel :=
    or_else (get roleHierarchy (to_string requiredRole)) (JNum 0) in
  ge userLevel requiredLevel.

End AuthService.

(* ------------------------------------------------------------------ *)
(** ** middleware/authMiddleware.js *)

Module AuthMiddleware.

(** What the gates read of the request: [req.user], attached by
    [requireAuth] from the result of [verifyToken], and [req.params]. *)
Record request : Type := mk_request {
  req_user : option object;
  req_params : object
}.

(** A gate either calls [next()] or answers [res.status(s).json(body)].
    Nothing in the [try] blocks of the two gates below can throw on a request
    of this shape, so their [catch] blocks (status 500) have no counterpart. *)
Inductive response : Type :=
| Next
| Json (status : Z) (body : object).

(** The argument of [requireRole]: one role or an array of roles. *)
Inductive allowed : Type :=
| One (r : value)
| Many (rs : list value).

Definition normalize (allowedRoles : allowed) : list value :=
  match allowedRoles with
  | Many rs => rs
  | One r => [r]
  end.

Definition requireRole (allowedRoles : allowed) (req : request) : response :=
  let roles := normalize allowedRoles in
  match req_user req with
  | None =>
      Json 401
        [ ("success", JBool false);
          ("error", JStr "Usuario no autenticado");
          ("message",
           JStr "Debes estar autenticado para acceder a esta ruta") ]
  | Some user =>
      if negb (includes roles (get user "role"))
      then
        Json 403
          [ ("success", JBool false);
            ("error", JStr "Permisos insuficientes");
            ("message",
             JStr ("Se requiere uno de estos roles: " ++ join ", " roles)) ]
      else Next
  end.

(** [userIdParam] is [None] when the gate is built without an argument and
    the default ['userId'] applies. *)
Definition requireSelfOrAdmin (userIdParam : option string) (req : request)
    : response :=
  let userIdParam :=
    match userIdParam with Some p => p | None => "userId" end in
  match req_user req with
  | None =>
      Json 401
        [ ("success", JBool false); ("error", JStr "Usuario no autenticado") ]
  | Some user =>
      let targetUserId := get (req_params req) userIdParam in
      let currentUserId := get user "id" in
      let userRole := get user "role" in
      let isSelf := strict_eq targetUserId currentUserId in
      let isAdmin :=
        includes [JStr "administrador"; JStr "presidente"] userRole in
      if negb isSelf && negb isAdmin
      then
        Json 403
          [ ("success", JBool false);
            ("error", JStr "Permisos insuficientes");
            ("message",
             JStr "Solo puedes acceder a tus propios datos o ser administrador") ]
      else Next
  end.

End AuthMiddleware.

(* ------------------------------------------------------------------ *)
(** ** Vocabulary of the specification *)

Module Spec.

(** The role levels as the specification lists them: referee 1,
    administrator 2, president 3, anything else 0. *)
Definition level (r : string) : Z :=
  if String.eqb r "arbitro" then 1
  else if String.eqb r "administrador" then 2
  else if String.eqb r "presidente" then 3
  else 0.

(** The specification's [hasPermission]: [level held >= level required]. *)
Definition hasPermission (held required : string) : bool :=
  level required <=? level held.

(** The [n]-th coming query is not rejected by the pool. *)
Definition query_ok (n : nat) (db : Db) : Prop := nth n (faults db) false = false.

(** The path parameter a self-or-admin gate is configured with, ['userId']
    when none is given. *)
Definition param_name (userIdParam : option string) : string :=
  match userIdParam with Some p => p | None => "userId" end.

(** The body of the 403 answers, [InsufficientPermissions]. *)
Definition insufficient (msg : string) : AuthMiddleware.response :=
  AuthMiddleware.Json 403
    [ ("success", JBool false);
      ("error", JStr "Permisos insuficientes");
      ("message", JStr msg) ].

(** The caller-facing errors of the service, by the specification's names. *)
Definition InvalidCredentials : error := Error "Email o contraseña incorrectos".
Definition AccountInactive : error :=
  Error "Usuario inactivo. Contacta al administrador".
Definition LoginFailed : error := Error "Error al procesar el login".
Definition TokenMalformed : error := Error "Token inválido".
Definition TokenExpired : error := Error "Token expirado".
Definition SubjectNotFound : error := Error "Usuario no encontrado".
Definition SubjectInactive : error := Error "Usuario inactivo".
Definition VerifyFailed : error := Error "Error al verificar el token".
Definition RefreshFailed : error := Error "Error al refrescar el token".

(** The Principal that [loginUser] builds from the row of the query by email:
    the columns that query does not select read as [undefined]. *)
Definition login_principal (u : user_row) : object :=
  [ ("id", id u); ("email", JStr (email u)); ("role", JStr (role u));
    ("firstName", first_name u); ("lastName", last_name u);
    ("phone", phone u); ("refereeId", JUndefined);
    ("licenseNumber", JUndefined); ("specialties", JUndefined);
    ("certificationLevel", JUndefined) ].

(** The Principal that [verifyToken] builds from the row of the query by id. *)
Definition verify_principal (u : user_row) : object :=
  [ ("id", id u); ("email", JStr (email u)); ("role", JStr (role u));
    ("firstName", first_name u); ("lastName", last_name u);
    ("phone", phone u); ("refereeId", JUndefined);
    ("licenseNumber", JUndefined); ("specialties", JUndefined) ].

(** A claim of a token's payload. *)
Definition claim (t : Jwt.token) (k : string) : value :=
  match t with
  | Jwt.Signed _ payload => get payload k
  | Jwt.Malformed _ => JUndefined
  end.

Definition claims (t : Jwt.token) : list string :=
  match t with
  | Jwt.Signed _ payload => keys payload
  | Jwt.Malformed _ => []
  end.

(** What [JSON.stringify] keeps. *)
Definition is_data (v : value) : bool :=
  match v with
  | JUndefined | JObject _ => false
  | _ => true
  end.

(** The payload has no not-before claim, or one that the clock has reached.
    The specification's tokens have none. *)
Definition not_before_passed (payload : object) (now : Z) : bool :=
  match get payload "nbf" with
  | JUndefined => true
  | JNum nbf => nbf <=? now / 1000
  | _ => false
  end.

(** The specification's token payload for the user [u]: subject id, email,
    role, time of issue, expiry, audience and issuer.  The referee id is
    optional, and no query of the service reads one. *)
Definition token_payload (u : user_row) (issuedAt expiresAt : Z) : object :=
  List.app
    (if is_data (id u) then [("userId", id u)] else [])
    [ ("email", JStr (email u)); ("role", JStr (role u));
      ("iat", JNum issuedAt); ("exp", JNum expiresAt);
      ("aud", JStr "sgad-system"); ("iss", JStr "sgad-auth-service") ].

(** The row [u] with another stored password hash. *)
Definition rehash (u : user_row) (h : string) : user_row :=
  mk_user (id u) (email u) h (role u) (first_name u) (last_name u)
          (phone u) (is_active u) (created_at u) (updated_at u).

End Spec.

Import AuthService AuthMiddleware Spec.

(* ------------------------------------------------------------------ *)
(** ** A sample deployment *)

Module Sample.

Definition secret : string := "c2dhZC1zZWNyZXQ".

(** A stand-in for [bcrypt.compare]: the stored hash of a password is the
    password behind a fixed prefix. *)
Definition bcrypt (data hash : string) : bool :=
  String.eqb hash ("$2b$10$" ++ data).

Definition ana : user_row :=
  mk_user (JStr "42") "ana@sgad.com" "$2b$10$correct" "arbitro"
          (JStr "Ana") (JStr "Ruiz") JNull true 1000 1000.

Definition luis (active : bool) : user_row :=
  mk_user (JStr "7") "luis@sgad.com" "$2b$10$hunter22" "administrador"
          (JStr "Luis") (JStr "Mora") (JStr "555-0100") active 2000 2000.

(** The table with [luis] active or deactivated, and the coming pool
    rejections. *)
Definition db (luis_active : bool) (rejections : list bool) : Db :=
  mk_db [ana; luis luis_active] rejections.

(** 2023-11-14T22:13:20Z, in milliseconds. *)
Definition t0 : Z := 1700000000000.

Definition login := loginUser secret "24h" 86400 bcrypt.
Definition verify := verifyToken secret.
Definition refresh := refreshToken secret "24h" 86400.
Definition issue := generateJWT secret 86400.

End Sample.

(* ------------------------------------------------------------------ *)
(** ** Requests and answers *)

Module Http.

(** [s.startsWith(p)]. *)
Definition startsWith (s p : string) : bool := String.prefix p s.

(** [s.substring(n)]: what follows the first [n] characters. *)
Fixpoint substring_from (n : nat) (s : string) : string :=
  match n, s with
  | O, _ => s
  | S n', String _ rest => substring_from n' rest
  | S _, EmptyString => EmptyString
  end.

(** What the middleware and the controllers read and write of an Express
    request: [req.headers.authorization], [req.user], [req.token],
    [req.params] and [req.body] (an object once [express.json()] has run). *)
Record request : Type := mk_http_request {
  http_authorization : option string;
  http_user : option object;
  http_token : option string;
  http_params : object;
  http_body : object
}.

Definition attach (req : request) (u : object) (t : string) : request :=
  mk_http_request (http_authorization req) (Some u) (Some t)
                  (http_params req) (http_body req).

(** The argument of [res.json]: values, tokens (their compact string),
    nested objects and arrays. *)
#[local] Unset Elimination Schemes.
Inductive json : Type :=
| Val (v : value)
| Tok (t : Jwt.token)
| Obj (members : list (string * json))
| Arr (items : list json).
#[local] Set Elimination Schemes.

Definition of_object (o : object) : json :=
  Obj (map (fun kv => (fst kv, Val (snd kv))) o).

Record answer : Type := mk_answer {
  status_code : Z;
  json_body : list (string * json)
}.

(** A middleware either answers or calls [next()] on the request it may have
    written to. *)
Inductive step : Type :=
| Continue (req : request)
| Answer (a : answer).

(** The view the role gate and the self-or-admin gate have of a request. *)
Definition gate_view (req : request) : AuthMiddleware.request :=
  mk_request (http_user req) (http_params req).

(** The answer of one of those gates, as an [Http.step]. *)
Definition of_gate (req : request) (r : AuthMiddleware.response) : step :=
  match r with
  | Next => Continue req
  | Json s b => Answer (mk_answer s (map (fun kv => (fst kv, Val (snd kv))) b))
  end.

End Http.

Import Http.

(* ------------------------------------------------------------------ *)
(** ** services/authService.js: logoutUser *)

Module AuthServiceLogout.

Record logout_result : Type := mk_logout_result {
  logout_success : bool;
  logout_message : string
}.

(** Nothing is done with the token: the body of the [try] only builds the
    result, so the [catch] has no counterpart. *)
Definition logoutUser (token : string) : M logout_result :=
  ret (mk_logout_result true "Sesión cerrada correctamente").

End AuthServiceLogout.

Import AuthServiceLogout.

(* ------------------------------------------------------------------ *)
(** ** middleware/authMiddleware.js: requireAuth, optionalAuth *)

Module BearerAuth.

Section Config.

(** The secret, and [jsonwebtoken]'s reading of a compact string as a
    token. *)
Variable JWT_SECRET : string.
Variable decode : string -> Jwt.token.

Definition requireAuth (req : request) (now : Z) : M step :=
  try_catch
    (match http_authorization req with
     | None =>
         ret (Answer (mk_answer 401
           [ ("success", Val (JBool false));
             ("error", Val (JStr "Token de autorización requerido"));
             ("message", Val (JStr
                "Debes proporcionar un token válido en el header Authorization")) ]))
     | Some authHeader =>
         if negb (truthy (JStr authHeader))
            || negb (startsWith authHeader "Bearer ")
         then
           ret (Answer (mk_answer 401
             [ ("success", Val (JBool false));
               ("error", Val (JStr "Token de autorización requerido"));
               ("message", Val (JStr
                  "Debes proporcionar un token válido en el header Authorization")) ]))
         else
           let token := substring_from 7 authHeader in
           result <- verifyToken JWT_SECRET (decode token) now ;;
           ret (Continue (attach req (verify_user result) token))
     end)%db
    (fun error =>
       ret (Answer (mk_answer 401
         [ ("success", Val (JBool false));
           ("error", Val (JStr "Token inválido"));
           ("message", Val (JStr (message error))) ]))).

Definition optionalAuth (req : request) (now : Z) : M step :=
  try_catch
    (match http_authorization req with
     | None => ret (Continue req)
     | Some authHeader =>
         if negb (truthy (JStr authHeader))
            || negb (startsWith authHeader "Bearer ")
         then ret (Continue req)
         else
           let token := substring_from 7 authHeader in
           try_catch
             (result <- verifyToken JWT_SECRET (decode token) now ;;
              ret (Continue (attach req (verify_user result) token)))
             (fun error => ret (Continue req))
     end)%db
    (fun error => ret (Continue req)).

End Config.

End BearerAuth.

Import BearerAuth.

(* ------------------------------------------------------------------ *)
(** ** controllers/authcontroller.js *)

Module AuthController.

Section Config.

Variable JWT_SECRET : string.
Variable JWT_EXPIRES_IN : string.
Variable lifetime : Z.
Variable bcrypt_compare : string -> string -> bool.
Variable decode : string -> Jwt.token.

(** [validateLoginInput] of utils/validation.js runs a Joi schema: either the
    messages of the violations or the validated [email] and [password]. *)
Variable validateLoginInput : object -> list string + string * string.

Definition login (req : request) (now : Z) : M answer :=
  try_catch
    (match validateLoginInput (http_body req) with
     | inl details =>
         ret (mk_answer 400
           [ ("success", Val (JBool false));
             ("error", Val (JStr "Datos de entrada inválidos"));
             ("details", Arr (map (fun m => Val (JStr m)) details)) ])
     | inr (email, password) =>
         result <- loginUser JWT_SECRET JWT_EXPIRES_IN lifetime bcrypt_compare
                     email password now ;;
         ret (mk_answer 200
           [ ("success", Val (JBool true));
             ("message", Val (JStr "Login exitoso"));
             ("data", Obj
                [ ("user", of_object (login_user result));
                  ("token", Tok (login_token result));
                  ("expiresIn", Val (JStr (login_expiresIn result))) ]) ])
     end)%db
    (fun error =>
       ret (mk_answer 401
         [ ("success", Val (JBool false));
           ("error", Val (JStr "Error de autenticación"));
           ("message", Val (JStr (message error))) ])).

Definition verifyToken (req : request) (now : Z) : M answer :=
  try_catch
    (match http_authorization req with
     | None =>
         ret (mk_answer 401
           [ ("success", Val (JBool false));
             ("error", Val (JStr "Token no proporcionado"));
             ("message", Val (JStr "Se requiere un token de autorización")) ])
     | Some authHeader =>
         if negb (truthy (JStr authHeader))
            || negb (startsWith authHeader "Bearer ")
         then
           ret (mk_answer 401
             [ ("success", Val (JBool false));
               ("error", Val (JStr "Token no proporcionado"));
               ("message", Val (JStr "Se requiere un token de autorización")) ])
         else
           let token := substring_from 7 authHeader in
           result <- AuthService.verifyToken JWT_SECRET (decode token) now ;;
           ret (mk_answer 200
             [ ("success", Val (JBool true));
               ("message", Val (JStr "Token válido"));
               ("data", Obj
                  [ ("user", of_object (verify_user result));
                    ("tokenValid", Val (JBool (tokenValid result))) ]) ])
     end)%db
    (fun error =>
       ret (mk_answer 401
         [ ("success", Val (JBool false));
           ("error", Val (JStr "Token inválido"));
           ("message", Val (JStr (message error))) ])).

Definition refreshToken (req : request) (now : Z) : M answer :=
  try_catch
    (match http_authorization req with
     | None =>
         ret (mk_answer 401
           [ ("success", Val (JBool false));
             ("error", Val (JStr "Token no proporcionado")) ])
     | Some authHeader =>
         if negb (truthy (JStr authHeader))
            || negb (startsWith authHeader "Bearer ")
         then
           ret (mk_answer 401
             [ ("success", Val (JBool false));
               ("error", Val (JStr "Token no proporcionado")) ])
         else
           let token := substring_from 7 authHeader in
           result <- AuthService.refreshToken JWT_SECRET JWT_EXPIRES_IN lifetime
                       (decode token) now ;;
           ret (mk_answer 200
             [ ("success", Val (JBool true));
               ("message", Val (JStr "Token refrescado exitosamente"));
               ("data", Obj
                  [ ("token", Tok (refresh_token result));
                    ("expiresIn", Val (JStr (refresh_expiresIn result))) ]) ])
     end)%db
    (fun error =>
       ret (mk_answer 401
         [ ("success", Val (JBool false));
           ("error", Val (JStr "Error al refrescar token"));
           ("message", Val (JStr (message error))) ])).

Definition logout (req : request) : M answer :=
  try_catch
    (match http_authorization req with
     | None =>
         ret (mk_answer 401
           [ ("success", Val (JBool false));
             ("error", Val (JStr "Token no proporcionado")) ])
     | Some authHeader =>
         if negb (truthy (JStr authHeader))
            || negb (startsWith authHeader "Bearer ")
         then
           ret (mk_answer 401
             [ ("success", Val (JBool false));
               ("error", Val (JStr "Token no proporcionado")) ])
         else
           let token := substring_from 7 authHeader in
           result <- logoutUser token ;;
           ret (mk_answer 200
             [ ("success", Val (JBool true));
               ("message", Val (JStr (logout_message result))) ])
     end)%db
    (fun error =>
       ret (mk_answer 500
         [ ("success", Val (JBool false));
           ("error", Val (JStr "Error al cerrar sesión"));
           ("message", Val (JStr (message error))) ])).

End Config.

(** Nothing in the [try] of the next two controllers can throw on a request of
    this shape. *)
Definition getProfile (req : request) : answer :=
  match http_user req with
  | None =>
      mk_answer 401
        [ ("success", Val (JBool false));
          ("error", Val (JStr "Usuario no autenticado")) ]
  | Some user =>
      mk_answer 200
        [ ("success", Val (JBool true));
          ("message", Val (JStr "Perfil obtenido exitosamente"));
          ("data", Obj [ ("user", of_object user) ]) ]
  end.

Definition checkPermissions (req : request) : answer :=
  let requiredRole := get (http_body req) "requiredRole" in
  match http_user req with
  | None =>
      mk_answer 401
        [ ("success", Val (JBool false));
          ("error", Val (JStr "Usuario no autenticado")) ]
  | Some user =>
      if negb (truthy requiredRole)
      then
        mk_answer 400
          [ ("success", Val (JBool false));
            ("error", Val (JStr "Rol requerido no especificado")) ]
      else
        let hasPermission := validatePermissions user requiredRole in
        mk_answer 200
          [ ("success", Val (JBool true));
            ("data", Obj
               [ ("hasPermission", Val (JBool hasPermission));
                 ("userRole", Val (get user "role"));
                 ("requiredRole", Val requiredRole) ]) ]
  end.

End AuthController.

(* ------------------------------------------------------------------ *)
(** ** routes/authRoutes.js *)

Module AuthRoutes.

(** [router.METHOD(path, middleware, handler)]: the handler runs on the
    request the middleware passed on, unless the middleware answered. *)
Definition guarded (middleware : request -> Z -> M step)
    (handler : request -> answer) (req : request) (now : Z) : M answer :=
  (s <- middleware req now ;;
   match s with
   | Continue req' => ret (handler req')
   | Answer a => ret a
   end)%db.

Section Config.

Variable JWT_SECRET : string.
Variable decode : string -> Jwt.token.

(** [router.get('/profile', requireAuth, getProfile)]. *)
Definition profile : request -> Z -> M answer :=
  guarded (requireAuth JWT_SECRET decode) AuthController.getProfile.

(** [router.post('/check-permissions', requireAuth, checkPermissions)]. *)
Definition check_permissions : request -> Z -> M answer :=
  guarded (requireAuth JWT_SECRET decode) AuthController.checkPermissions.

End Config.

End AuthRoutes.

(* ------------------------------------------------------------------ *)
(** ** Vocabulary for the requests *)

Module HttpSpec.

(** The two 401 answers of [requireAuth]. *)
Definition token_required : answer :=
  mk_answer 401
    [ ("success", Val (JBool false));
      ("error", Val (JStr "Token de autorización requerido"));
      ("message", Val (JStr
         "Debes proporcionar un token válido en el header Authorization")) ].

Definition token_invalid (msg : string) : answer :=
  mk_answer 401
    [ ("success", Val (JBool false));
      ("error", Val (JStr "Token inválido"));
      ("message", Val (JStr msg)) ].

(** A request carrying the header [h]. *)
Definition with_header (h : string) (req : request) : request :=
  mk_http_request (Some h) (http_user req) (http_token req)
                  (http_params req) (http_body req).

(** [requireAuth] followed by [requireRole(allowedRoles)]. *)
Definition auth_then_role (JWT_SECRET : string) (decode : string -> Jwt.token)
    (allowedRoles : allowed) (req : request) (now : Z) : M step :=
  (s <- requireAuth JWT_SECRET decode req now ;;
   match s with
   | Continue req' => ret (of_gate req' (requireRole allowedRoles (gate_view req')))
   | Answer a => ret (Answer a)
   end)%db.

(** [optionalAuth] followed by [requireRole(allowedRoles)]. *)
Definition optional_then_role (JWT_SECRET : string)
    (decode : string -> Jwt.token)
    (allowedRoles : allowed) (req : request) (now : Z) : M step :=
  (s <- optionalAuth JWT_SECRET decode req now ;;
   match s with
   | Continue req' => ret (of_gate req' (requireRole allowedRoles (gate_view req')))
   | Answer a => ret (Answer a)
   end)%db.

End HttpSpec.

Import HttpSpec.

(* ------------------------------------------------------------------ *)
(** ** More of the sample deployment *)

Module SampleHttp.

(** A token ["stale"] signed for [ana] when it claimed the role presidente,
    good until a day after [Sample.t0]; every other string is no token. *)
Definition stale_payload : object :=
  [ ("userId", JStr "42"); ("email", JStr "ana@sgad.com");
    ("role", JStr "presidente"); ("iat", JNum 1700000000);
    ("exp", JNum 1700086400); ("aud", JStr "sgad-system");
    ("iss", JStr "sgad-auth-service") ].

Definition decode (s : string) : Jwt.token :=
  if String.eqb s "stale" then Jwt.Signed Sample.secret stale_payload
  else Jwt.Malformed s.

(** A token ["early"] like ["stale"], not to be used before an hour after
    [Sample.t0]. *)
Definition early_payload : object :=
  ("nbf", JNum 1700003600) :: stale_payload.

Definition decode_early (s : string) : Jwt.token :=
  if String.eqb s "early" then Jwt.Signed Sample.secret early_payload
  else decode s.

Definition request_with (h : option string) (b : object) : request :=
  mk_http_request h None None [] b.

(** A stand-in for the Joi schema: both members must be strings, the
    password of 6 to 100 characters. *)
Definition validateLoginInput (b : object) : list string + string * string :=
  match get b "email", get b "password" with
  | JStr e, JStr p =>
      if (Nat.leb 6 (String.length p) && Nat.leb (String.length p) 100)%bool
      then inr (e, p)
      else inl ["La contraseña debe tener al menos 6 caracteres"]
  | _, _ => inl ["El email es requerido"]
  end.

End SampleHttp.

(* ------------------------------------------------------------------ *)
(** ** Vocabulary for the store *)

Module StoreSpec.

(** [id] is a primary key of the table: never NULL, never repeated. *)
Definition primary_key (db : Db) : Prop :=
  NoDup (map id (users db))
  /\ forall u, In u (users db) -> sql_eq (id u) (id u) = true.

(** The form [loginUser] looks emails up in. *)
Definition normalize_email (e : string) : string := trim (toLowerCase e).




End StoreSpec.

Import StoreSpec.

(* ------------------------------------------------------------------ *)
(** ** Regular expressions *)

Module Regex.

(** The fragment of JavaScript's patterns that utils/validation.js uses:
    character classes, sequence, alternative and repetition.  A pattern is
    matched by taking derivatives, one character at a time. *)
Inductive re : Type :=
| Void
| Eps
| Class (p : ascii -> bool)
| Cat (r s : re)
| Alt (r s : re)
| Star (r : re).

(** [r+]. *)
Definition Plus (r : re) : re := Cat r (Star r).

Definition Any : re := Class (fun _ => true).

Fixpoint nullable (r : re) : bool :=
  match r with
  | Void => false
  | Eps => true
  | Class _ => false
  | Cat r s => nullable r && nullable s
  | Alt r s => nullable r || nullable s
  | Star _ => true
  end.

Fixpoint deriv (c : ascii) (r : re) : re :=
  match r with
  | Void => Void
  | Eps => Void
  | Class p => if p c then Eps else Void
  | Cat r s =>
      if nullable r then Alt (Cat (deriv c r) s) (deriv c s)
      else Cat (deriv c r) s
  | Alt r s => Alt (deriv c r) (deriv c s)
  | Star r => Cat (deriv c r) (Star r)
  end.

(** [/^r$/.test(s)]: the whole of [s] matches [r]. *)
Fixpoint matches (r : re) (s : string) : bool :=
  match s with
  | EmptyString => nullable r
  | String c rest => matches (deriv c r) rest
  end.

(** [/r/.test(s)], no anchor: some part of [s] matches [r]. *)
Definition test (r : re) (s : string) : bool :=
  matches (Cat (Star Any) (Cat r (Star Any))) s.

(** The strings a pattern denotes. *)
Inductive lang : re -> string -> Prop :=
| lang_eps : lang Eps ""
| lang_class p c : p c = true -> lang (Class p) (String c "")
| lang_cat r s u v : lang r u -> lang s v -> lang (Cat r s) (u ++ v)
| lang_alt_l r s u : lang r u -> lang (Alt r s) u
| lang_alt_r r s u : lang s u -> lang (Alt r s) u
| lang_star_nil r : lang (Star r) ""
| lang_star_more r u v : lang r u -> lang (Star r) v -> lang (Star r) (u ++ v).

End Regex.

(* ------------------------------------------------------------------ *)
(** ** utils/validation.js *)

Module Validation.

Import Regex.
Local Open Scope nat_scope.

Definition code (c : ascii) : nat := nat_of_ascii c.

Definition between (lo hi : nat) (c : ascii) : bool :=
  Nat.leb lo (code c) && Nat.leb (code c) hi.

(** [[a-z]], [[A-Z]], [\d], [\w] and [\s] on ASCII characters. *)
Definition is_lower : ascii -> bool := between 97 122.
Definition is_upper : ascii -> bool := between 65 90.
Definition is_digit : ascii -> bool := between 48 57.
Definition is_word (c : ascii) : bool :=
  is_lower c || is_upper c || is_digit c || Nat.eqb (code c) 95.

Definition one_of (chars : list nat) (c : ascii) : bool :=
  existsb (Nat.eqb (code c)) chars.

(** [/^[^\s@]+@[^\s@]+\.[^\s@]+$/]. *)
Definition not_space_or_at (c : ascii) : bool :=
  negb (is_space c || Nat.eqb (code c) 64).

Definition emailRegex : re :=
  Cat (Plus (Class not_space_or_at))
      (Cat (Class (one_of [64]))
           (Cat (Plus (Class not_space_or_at))
                (Cat (Class (one_of [46]))
                     (Plus (Class not_space_or_at))))).

Definition isValidEmail (email : string) : bool := matches emailRegex email.

(** The class of the fifth pattern of [validatePasswordStrength], the
    thirty punctuation characters from [!] to [?] it lists, by character
    code. *)
Definition is_special : ascii -> bool :=
  one_of [ 33; 64; 35; 36; 37; 94; 38; 42; 40; 41; 95; 43; 45; 61; 91; 93;
           123; 125; 59; 39; 58; 34; 92; 124; 44; 46; 60; 62; 47; 63 ].

Record strength_result : Type := mk_strength {
  isValid : bool;
  score : Z;
  feedback : list string;
  strength : option string
}.

(** One of the five checks: a failed check pushes its message and, for the
    first four, clears [isValid]; a passed one adds a point. *)
Definition check (passed invalidates : bool) (msg : string)
    (r : strength_result) : strength_result :=
  if passed
  then mk_strength (isValid r) (score r + 1)%Z (feedback r) (strength r)
  else mk_strength (if invalidates then false else isValid r) (score r)
                   (feedback r ++ [msg]) (strength r).

Definition validatePasswordStrength (password : string) : strength_result :=
  let result := mk_strength true 0%Z [] None in
  let result :=
    check (negb (Nat.ltb (String.length password) 8)) true
          "Debe tener al menos 8 caracteres" result in
  let result :=
    check (test (Class is_lower) password) true
          "Debe contener al menos una letra minúscula" result in
  let result :=
    check (test (Class is_upper) password) true
          "Debe contener al menos una letra mayúscula" result in
  let result :=
    check (test (Class is_digit) password) true
          "Debe contener al menos un número" result in
  let result :=
    check (test (Class is_special) password) false
          "Debe contener al menos un carácter especial" result in
  mk_strength (isValid result) (score result) (feedback result)
    (Some (if (score result <=? 2)%Z then "débil"
           else if (score result <=? 3)%Z then "media"
           else if (score result <=? 4)%Z then "fuerte"
           else "muy fuerte")).

(** [s.replace(/[<>]/g, '')]. *)
Fixpoint remove_angle_brackets (s : string) : string :=
  match s with
  | EmptyString => EmptyString
  | String c rest =>
      if one_of [60; 62] c then remove_angle_brackets rest
      else String c (remove_angle_brackets rest)
  end.

(** [s] starts with [p], letters compared without case (flag [i]). *)
Fixpoint starts_with_ci (p s : string) : bool :=
  match p, s with
  | EmptyString, _ => true
  | String _ _, EmptyString => false
  | String a p', String b s' =>
      Ascii.eqb (lower_ascii a) (lower_ascii b) && starts_with_ci p' s'
  end.

(** [s.replace(/javascript:/gi, '')]: one pass from the left; [skip] counts
    the characters of the current match still to drop. *)
Fixpoint remove_javascript_from (skip : nat) (s : string) : string :=
  match s with
  | EmptyString => EmptyString
  | String c rest =>
      match skip with
      | S k => remove_javascript_from k rest
      | O =>
          if starts_with_ci "javascript:" s
          then remove_javascript_from 10 rest
          else String c (remove_javascript_from 0 rest)
      end
  end.

(** The longest run of word characters in front of [s]. *)
Fixpoint word_run (s : string) : nat :=
  match s with
  | String c rest => if is_word c then S (word_run rest) else O
  | EmptyString => O
  end.

(** The length of the match of [/on\w+=/i] at the front of [s], if any: the
    run taken by [\w+] is the longest one, since [=] is no word character. *)
Definition on_handler_match (s : string) : option nat :=
  if starts_with_ci "on" s
  then
    let run := word_run (substring_from 2 s) in
    if Nat.ltb 0 run
       && starts_with_ci "=" (substring_from (2 + run) s)
    then Some (2 + run + 1)
    else None
  else None.

(** [s.replace(/on\w+=/gi, '')]. *)
Fixpoint remove_on_handlers_from (skip : nat) (s : string) : string :=
  match s with
  | EmptyString => EmptyString
  | String c rest =>
      match skip with
      | S k => remove_on_handlers_from k rest
      | O =>
          match on_handler_match s with
          | Some len => remove_on_handlers_from (len - 1) rest
          | None => String c (remove_on_handlers_from 0 rest)
          end
      end
  end.

Definition sanitizeText (text : value) : string :=
  match text with
  | JStr text =>
      remove_on_handlers_from 0
        (remove_javascript_from 0 (remove_angle_brackets (trim text)))
  | _ => ""
  end.

Definition validRoles : list value :=
  [JStr "arbitro"; JStr "administrador"; JStr "presidente"].

Definition validateRoles (roles : allowed) : bool :=
  let rolesToCheck := normalize roles in
  forallb (fun role => includes validRoles role) rolesToCheck.

End Validation.

(** Strings whose characters are all ASCII: on them [length], [trim],
    [toLowerCase] and the character classes above are those of
    JavaScript. *)
Definition ascii_only (s : string) : Prop :=
  Forall (fun c => (nat_of_ascii c < 128)%nat) (list_ascii_of_string s).

(* ------------------------------------------------------------------ *)
(** ** Vocabulary for the validators *)

Module ValidationSpec.

Fixpoint all_chars (p : ascii -> bool) (s : string) : bool :=
  match s with
  | EmptyString => true
  | String c rest => p c && all_chars p rest
  end.

Fixpoint some_char (p : ascii -> bool) (s : string) : bool :=
  match s with
  | EmptyString => false
  | String c rest => p c || some_char p rest
  end.

Fixpoint count_chars (p : ascii -> bool) (s : string) : nat :=
  match s with
  | EmptyString => O
  | String c rest => (if p c then 1 else 0) + count_chars p rest
  end.

(** A part of an email address as [isValidEmail] sees it: not empty, no
    white space, no [@]. *)
Definition email_part (s : string) : Prop :=
  s <> "" /\ all_chars Validation.not_space_or_at s = true.

Definition is_at (c : ascii) : bool := Nat.eqb (nat_of_ascii c) 64.
Definition is_angle (c : ascii) : bool := Validation.one_of [60%nat; 62%nat] c.

Definition points (b : bool) : Z := if b then 1 else 0.

(** [t] is [s] with some of its characters deleted, the others in place. *)
Inductive subsequence : string -> string -> Prop :=
| subsequence_nil : subsequence "" ""
| subsequence_keep c t s :
    subsequence t s -> subsequence (String c t) (String c s)
| subsequence_drop c t s :
    subsequence t s -> subsequence t (String c s).

End ValidationSpec.

Import ValidationSpec.

(* ------------------------------------------------------------------ *)
(** ** utils/generateToken.js *)

Module GenerateToken.

(** [args.indexOf(name)], [None] standing for [-1]. *)
Fixpoint indexOf (args : list string) (name : string) : option nat :=
  match args with
  | [] => None
  | a :: rest =>
      if String.eqb a name then Some O
      else option_map S (indexOf rest name)
  end.

(** [getArg]: the argument after the first [name]; [null] without [name],
    [undefined] when [name] comes last. *)
Definition getArg (args : list string) (name : string) : value :=
  match indexOf args name with
  | Some index =>
      match nth_error args (index + 1) with
      | Some v => JStr v
      | None => JUndefined
      end
  | None => JNull
  end.

Definition hasFlag (args : list string) (name : string) : bool :=
  existsb (String.eqb name) args.

(** [process.env.X || fallback]. *)
Definition env_or (x : option string) (fallback : string) : string :=
  match x with
  | Some s => if truthy (JStr s) then s else fallback
  | None => fallback
  end.

(** How a run of the script ends: the help text, a payload printed by
    [--verify] or [--decode], a token printed by the generator, or
    [process.exit(code)]. *)
Inductive outcome : Type :=
| Help
| Printed (payload : object)
| Generated (t : Jwt.token)
| Exit (code : Z).

Section Process.

(** The environment when the module is loaded, [jsonwebtoken]'s reading of
    an [expiresIn] setting in seconds ([None] when it rejects the setting),
    and its reading of a compact string as a token. *)
Variable env_JWT_SECRET : option string.
Variable env_JWT_EXPIRES_IN : option string.
Variable timespan : string -> option Z.
Variable decode : string -> Jwt.token.

Definition JWT_SECRET : string :=
  env_or env_JWT_SECRET "default_secret_for_development".
Definition JWT_EXPIRES_IN : string := env_or env_JWT_EXPIRES_IN "24h".

Definition generateToken (payload : object) (now : Z) : outcome :=
  match timespan JWT_EXPIRES_IN with
  | Some seconds =>
      Generated
        (Jwt.sign payload JWT_SECRET
           (Jwt.mk_sign_options seconds "sgad-auth-service" "sgad-system") now)
  | None => Exit 1
  end.

Definition verifyToken (token : string) (now : Z) : outcome :=
  match Jwt.verify (decode token) JWT_SECRET false now with
  | Return decoded => Printed decoded
  | Throw _ => Exit 1
  end.

(** [jwt.decode] reads the payload without checking the signature. *)
Definition decodeToken (token : string) : outcome :=
  match decode token with
  | Jwt.Signed _ payload => Printed payload
  | Jwt.Malformed _ => Exit 1
  end.

(** [main], on the arguments after the script name; the second component is
    [process.env.JWT_EXPIRES_IN] when the run ends. *)
Definition main (args : list string) (now : Z) : outcome * option string :=
  let env := env_JWT_EXPIRES_IN in
  if hasFlag args "--help" || hasFlag args "-h"
     || Nat.eqb (List.length args) 0
  then (Help, env)
  else if hasFlag args "--verify"
  then
    let token := getArg args "--verify" in
    if negb (truthy token) then (Exit 1, env)
    else (verifyToken (to_string token) now, env)
  else if hasFlag args "--decode"
  then
    let token := getArg args "--decode" in
    if negb (truthy token) then (Exit 1, env)
    else (decodeToken (to_string token), env)
  else
    let userId := or_else (getArg args "--userId") (JStr "1") in
    let email := or_else (getArg args "--email") (JStr "test@sgad.com") in
    let role := or_else (getArg args "--role") (JStr "arbitro") in
    let refereeId := or_else (getArg args "--refereeId") JNull in
    let customExpiresIn := getArg args "--expiresIn" in
    let payload :=
      [ ("userId", userId); ("email", email); ("role", role);
        ("iat", JNum (now / 1000)) ] in
    let payload :=
      if truthy refereeId then set payload "refereeId" refereeId
      else payload in
    if truthy customExpiresIn
    then
      let originalExpiresIn := JWT_EXPIRES_IN in
      let env := Some (to_string customExpiresIn) in
      match generateToken payload now with
      | Exit code => (Exit code, env)
      | done => (done, Some originalExpiresIn)
      end
    else (generateToken payload now, env).

End Process.

End GenerateToken.

(* ------------------------------------------------------------------ *)
(** ** JavaScript helpers *)

Lemma strict_eq_true (a b : value) : strict_eq a b = true <-> a = b.
Proof.
  unfold strict_eq. destruct (value_eq_dec a b); split; congruence.
Qed.

Lemma strict_eq_refl (a : value) : strict_eq a a = true.
Proof. now apply strict_eq_true. Qed.

Lemma includes_In (arr : list value) (v : value) :
  includes arr v = true <-> In v arr.
Proof.
  unfold includes. rewrite existsb_exists. split.
  - intros [x [Hin Heq]]. apply strict_eq_true in Heq. now subst.
  - intros Hin. exists v. split; [assumption | apply strict_eq_refl].
Qed.

(* ------------------------------------------------------------------ *)
(** ** Permission evaluator *)

(** A name that has a level is not a member of [Object.prototype]. *)
Lemma level_pos_known (r : string) :
  1 <= level r -> r = "arbitro" \/ r = "administrador" \/ r = "presidente".
Proof.
  unfold level.
  destruct (String.eqb_spec r "arbitro"); [auto |].
  destruct (String.eqb_spec r "administrador"); [auto |].
  destruct (String.eqb_spec r "presidente"); [auto |].
  lia.
Qed.

(** Away from the inherited names, the table lookup with its [|| 0] is the
    specification's [level]. *)
Lemma roleHierarchy_level (r : string) :
  Object_prototype r = None ->
  or_else (get roleHierarchy r) (JNum 0) = JNum (level r).
Proof.
  intros Hproto. unfold get, roleHierarchy, level, own.
  destruct (String.eqb_spec "presidente" r) as [<- | Hp]; [reflexivity |].
  destruct (String.eqb_spec "administrador" r) as [<- | Ha]; [reflexivity |].
  destruct (String.eqb_spec "arbitro" r) as [<- | Hr]; [reflexivity |].
  rewrite Hproto.
  destruct (String.eqb_spec r "arbitro"); [congruence |].
  destruct (String.eqb_spec r "administrador"); [congruence |].
  destruct (String.eqb_spec r "presidente"); [congruence |].
  reflexivity.
Qed.

(** Whatever an unmapped name resolves to, it is the number 0 or an
    inherited object, never a positive level. *)
Lemma roleHierarchy_unmapped (r : string) :
  level r = 0 ->
  or_else (get roleHierarchy r) (JNum 0) = JNum 0
  \/ exists o, or_else (get roleHierarchy r) (JNum 0) = JObject o.
Proof.
  intros Hl. destruct (Object_prototype r) as [v |] eqn:Hproto.
  - right. unfold get, roleHierarchy, own.
    destruct (String.eqb_spec "presidente" r) as [<- | Hp]; [discriminate |].
    destruct (String.eqb_spec "administrador" r) as [<- | Ha]; [discriminate |].
    destruct (String.eqb_spec "arbitro" r) as [<- | Hr]; [discriminate |].
    rewrite Hproto. revert Hproto. unfold Object_prototype, native.
    repeat match goal with
           | |- context [if ?c then _ else _] => destruct c
           end; intros [= <-]; eexists; reflexivity.
  - left. rewrite roleHierarchy_level by assumption. now rewrite Hl.
Qed.

(** C3, as stated, fails on the code.  A required role named like a member of
    [Object.prototype] does not resolve to level 0: the table lookup yields the
    inherited function, and president (level 3) is refused although
    [level "constructor" = 0 <= 3].  And an unmapped held role is allowed as
    soon as the required role is unmapped too, since [0 >= 0]. *)
Lemma validatePermissions_not_the_level_order :
  validatePermissions [("role", JStr "presidente")] (JStr "constructor")
    <> hasPermission "presidente" "constructor"
  /\ (level "guest" = 0
      /\ validatePermissions [("role", JStr "guest")] (JStr "guest") = true).
Proof.
  split; [discriminate | split; reflexivity].
Qed.

(** C3, amended.  For role strings that are not names inherited from
    [Object.prototype], [validatePermissions] resolves arbitro, administrador
    and presidente to 1, 2 and 3 and any other string to 0, and answers
    [level held >= level required]; and a held role without a level, whatever
    its name, is refused against each of the three known required roles. *)
Theorem validatePermissions_level_order
    (user : object) (held required : string)
    (Hrole : get user "role" = JStr held) :
  (Object_prototype held = None -> Object_prototype required = None ->
   validatePermissions user (JStr required) = hasPermission held required)
  /\ (level held = 0 -> 1 <= level required ->
      validatePermissions user (JStr required) = false).
Proof.
  unfold validatePermissions, hasPermission. rewrite Hrole. simpl to_string.
  split.
  - intros Hh Hr. now rewrite !roleHierarchy_level by assumption.
  - intros Hh Hr.
    assert (Hreq : or_else (get roleHierarchy required) (JNum 0)
                   = JNum (level required)).
    { apply roleHierarchy_level.
      destruct (level_pos_known required Hr) as [-> | [-> | ->]]; reflexivity. }
    rewrite Hreq.
    destruct (roleHierarchy_unmapped held Hh) as [-> | [o ->]]; simpl.
    + apply Z.leb_gt. lia.
    + reflexivity.
Qed.

Lemma validatePermissions_level_order_witness :
  validatePermissions [("id", JNum 7); ("role", JStr "administrador")]
                      (JStr "arbitro") = true
  /\ validatePermissions [("id", JNum 9); ("role", JStr "toString")]
                         (JStr "presidente") = false.
Proof.
  split.
  - apply (proj1 (validatePermissions_level_order
                    [("id", JNum 7); ("role", JStr "administrador")]
                    "administrador" "arbitro" eq_refl));
      reflexivity.
  - apply (proj2 (validatePermissions_level_order
                    [("id", JNum 9); ("role", JStr "toString")]
                    "toString" "presidente" eq_refl));
      [reflexivity | vm_compute; discriminate].
Defined.

(* ------------------------------------------------------------------ *)
(** ** Authorization gates *)

(** C10.  With a Principal attached, the role gate lets the request through
    iff the Principal's role is literally one of the configured roles, and
    otherwise answers 403 with the list of allowed roles; the hierarchy plays
    no part: president is refused by a gate that lists only administrador,
    although [validatePermissions] ranks president above administrador. *)
Theorem requireRole_allows_iff_member
    (allowedRoles : allowed) (user params : object) :
  (requireRole allowedRoles (mk_request (Some user) params) = Next
   <-> In (get user "role") (normalize allowedRoles))
  /\ (~ In (get user "role") (normalize allowedRoles) ->
      requireRole allowedRoles (mk_request (Some user) params)
      = insufficient ("Se requiere uno de estos roles: "
                      ++ join ", " (normalize allowedRoles)))
  /\ (requireRole (Many [JStr "administrador"])
        (mk_request (Some [("id", JStr "1"); ("role", JStr "presidente")]) [])
      = insufficient "Se requiere uno de estos roles: administrador"
      /\ requireRole (One (JStr "administrador"))
           (mk_request (Some [("id", JStr "1"); ("role", JStr "presidente")]) [])
         = insufficient "Se requiere uno de estos roles: administrador"
      /\ validatePermissions [("id", JStr "1"); ("role", JStr "presidente")]
           (JStr "administrador") = true).
Proof.
  split; [| split; [| repeat split; reflexivity]].
  - rewrite <- includes_In. unfold requireRole; cbn.
    destruct (includes (normalize allowedRoles) (get user "role"));
      split; intros H; (reflexivity || discriminate H).
  - rewrite <- includes_In. unfold requireRole, insufficient; cbn.
    destruct (includes (normalize allowedRoles) (get user "role"));
      intros H; [now elim H | reflexivity].
Qed.

(** C5.  With a Principal attached, the self-or-admin gate lets the request
    through iff the path parameter is strictly equal to the Principal's id or
    the Principal's role is administrador or presidente, and otherwise answers
    403 [InsufficientPermissions]; the three scenarios of the specification
    follow. *)
Theorem requireSelfOrAdmin_allows_iff
    (userIdParam : option string) (user params : object) :
  (requireSelfOrAdmin userIdParam (mk_request (Some user) params) = Next
   <-> (get params (param_name userIdParam) = get user "id"
        \/ get user "role" = JStr "administrador"
        \/ get user "role" = JStr "presidente"))
  /\ (requireSelfOrAdmin userIdParam (mk_request (Some user) params) <> Next ->
      requireSelfOrAdmin userIdParam (mk_request (Some user) params)
      = insufficient
          "Solo puedes acceder a tus propios datos o ser administrador")
  /\ (requireSelfOrAdmin (Some "userId")
        (mk_request (Some [("id", JStr "42"); ("role", JStr "arbitro")])
                    [("userId", JStr "42")]) = Next
      /\ requireSelfOrAdmin (Some "userId")
           (mk_request (Some [("id", JStr "7"); ("role", JStr "arbitro")])
                       [("userId", JStr "42")])
         = insufficient
             "Solo puedes acceder a tus propios datos o ser administrador"
      /\ requireSelfOrAdmin (Some "userId")
           (mk_request (Some [("id", JStr "7"); ("role", JStr "administrador")])
                       [("userId", JStr "42")]) = Next).
Proof.
  split; [| split; [| repeat split; reflexivity]];
    unfold requireSelfOrAdmin, insufficient;
    cbv beta iota zeta delta [req_user req_params];
    fold (param_name userIdParam);
    generalize (param_name userIdParam) as p; intros p.
  - destruct (strict_eq (get params p) (get user "id")) eqn:Hself.
    + apply strict_eq_true in Hself. simpl. tauto.
    + destruct (includes [JStr "administrador"; JStr "presidente"]
                         (get user "role")) eqn:Hadm; simpl.
      * apply includes_In in Hadm. simpl in Hadm. intuition congruence.
      * split; [discriminate |].
        intros [Heq | Hrole].
        -- apply strict_eq_true in Heq. congruence.
        -- assert (Hin : In (get user "role")
                            [JStr "administrador"; JStr "presidente"])
             by (simpl; intuition congruence).
           apply includes_In in Hin. congruence.
  - destruct (negb (strict_eq (get params p) (get user "id"))
              && negb (includes [JStr "administrador"; JStr "presidente"]
                                (get user "role"))); [reflexivity | congruence].
Qed.

(* ------------------------------------------------------------------ *)
(** ** Objects, tokens and queries *)

Lemma get_own (o : object) (k : string) (v : value) :
  own o k = Some v -> get o k = v.
Proof. unfold get. now intros ->. Qed.

(** Serialization keeps the first member of a name when it is a datum. *)
Lemma own_json_roundtrip (o : object) (k : string) (v : value) :
  own o k = Some v -> is_data v = true -> own (json_roundtrip o) k = Some v.
Proof.
  intros Hown Hdata. induction o as [| [k' v'] rest IH]; [discriminate |].
  simpl in Hown. unfold json_roundtrip in *. simpl.
  destruct (String.eqb k' k) eqn:Hk.
  - injection Hown as ->.
    destruct v; try discriminate; simpl; now rewrite Hk.
  - specialize (IH Hown).
    destruct v'; simpl; rewrite ?Hk; exact IH.
Qed.

(** Serialization adds no member. *)
Lemma keys_json_roundtrip (o : object) (k : string) :
  In k (keys (json_roundtrip o)) -> In k (keys o).
Proof.
  unfold keys, json_roundtrip. rewrite !in_map_iff.
  intros [kv [Hk Hin]]. apply filter_In in Hin. exists kv. tauto.
Qed.

(** The rows both lookups return are active ones. *)
Lemma by_email_active_found (e : string) (rows : list user_row) (u : user_row) :
  find (by_email_active e) rows = Some u ->
  In u rows /\ email u = e /\ is_active u = true.
Proof.
  intros H. apply find_some in H as [Hin Hp]. unfold by_email_active in Hp.
  apply andb_true_iff in Hp as [He Ha]. apply String.eqb_eq in He. auto.
Qed.

Lemma by_id_active_found (i : value) (rows : list user_row) (u : user_row) :
  find (by_id_active i) rows = Some u ->
  In u rows /\ id u = i /\ is_data i = true /\ is_active u = true.
Proof.
  intros H. apply find_some in H as [Hin Hp]. unfold by_id_active in Hp.
  apply andb_true_iff in Hp as [He Ha]. unfold sql_eq in He.
  destruct i; try discriminate; apply strict_eq_true in He; auto.
Qed.

(** Serialization brings no member back. *)
Lemma own_json_roundtrip_none (o : object) (k : string) :
  own o k = None -> own (json_roundtrip o) k = None.
Proof.
  unfold json_roundtrip. induction o as [| [k' v'] rest IH]; [reflexivity |].
  simpl. destruct (String.eqb k' k) eqn:Hk; [discriminate |].
  intros Hown. specialize (IH Hown).
  destruct v'; simpl; rewrite ?Hk; exact IH.
Qed.

Lemma Jwt_check_exp_throws (payload : object) (ign : bool) (clock : Z)
    (e : error) :
  Jwt.check_exp payload ign clock = Throw e ->
  e = Jwt.JsonWebTokenError "invalid exp value"
  \/ (e = Jwt.TokenExpiredError "jwt expired" /\ ign = false).
Proof.
  unfold Jwt.check_exp.
  destruct (get payload "exp"); destruct ign; try discriminate;
    try (intros [= <-]; auto).
  destruct (n <=? clock); [intros [= <-]; auto | discriminate].
Qed.

(** The errors [jwt.verify] throws. *)
Lemma Jwt_verify_throws (t : Jwt.token) (secret : string) (ign : bool)
    (now : Z) (e : error) :
  Jwt.verify t secret ign now = Throw e ->
  e = Jwt.JsonWebTokenError "jwt malformed"
  \/ e = Jwt.JsonWebTokenError "invalid signature"
  \/ e = Jwt.JsonWebTokenError "invalid nbf value"
  \/ e = Jwt.NotBeforeError "jwt not active"
  \/ e = Jwt.JsonWebTokenError "invalid exp value"
  \/ (e = Jwt.TokenExpiredError "jwt expired" /\ ign = false).
Proof.
  unfold Jwt.verify. destruct t as [key payload | raw].
  - destruct (negb (String.eqb key secret)); [intros [= <-]; auto |].
    destruct (get payload "nbf") as [| | b | n | s | r];
      try (intros [= <-]; now auto 6).
    + intros H. apply Jwt_check_exp_throws in H. tauto.
    + destruct (now / 1000 <? n); [intros [= <-]; auto 6 |].
      intros H. apply Jwt_check_exp_throws in H. tauto.
  - intros [= <-]; auto.
Qed.



(** Past the signature, a payload whose not-before claim has passed is left
    to the expiry check. *)
Lemma Jwt_verify_not_before_passed (secret : string) (payload : object)
    (ign : bool) (now : Z) :
  not_before_passed payload now = true ->
  Jwt.verify (Jwt.Signed secret payload) secret ign now
  = Jwt.check_exp payload ign (now / 1000).
Proof.
  unfold Jwt.verify, not_before_passed. rewrite String.eqb_refl. simpl negb.
  cbv iota zeta.
  destruct (get payload "nbf") as [| | b | n | s | r]; try discriminate;
    [reflexivity |].
  intros Hle. apply Z.leb_le in Hle.
  replace (now / 1000 <? n) with false by (symmetry; apply Z.ltb_ge; lia).
  reflexivity.
Qed.

(** A not-before claim that is pending, or is no number, has the token
    refused, under [ignoreExpiration] as well. *)
Lemma Jwt_verify_not_before_pending (secret : string) (payload : object)
    (ign : bool) (now : Z) :
  not_before_passed payload now = false ->
  exists e, Jwt.verify (Jwt.Signed secret payload) secret ign now = Throw e.
Proof.
  unfold Jwt.verify, not_before_passed. rewrite String.eqb_refl. simpl negb.
  cbv iota zeta.
  destruct (get payload "nbf") as [| | b | n | s | r]; try discriminate;
    try (intros _; eexists; reflexivity).
  intros Hgt. apply Z.leb_gt in Hgt.
  replace (now / 1000 <? n) with true by (symmetry; apply Z.ltb_lt; lia).
  eexists; reflexivity.
Qed.

(** With [ignoreExpiration], a token signed under the secret decodes once
    its not-before claim, if any, has passed. *)
Lemma Jwt_verify_ignoring_expiry (secret : string) (payload : object) (now : Z) :
  not_before_passed payload now = true ->
  Jwt.verify (Jwt.Signed secret payload) secret true now = Return payload.
Proof.
  intros Hnbf. rewrite Jwt_verify_not_before_passed by assumption.
  unfold Jwt.check_exp. now destruct (get payload "exp").
Qed.

(** Before the expiry the token decodes, from the expiry on it is refused. *)
Lemma Jwt_verify_before_expiry (secret : string) (payload : object)
    (e now : Z) :
  not_before_passed payload now = true ->
  get payload "exp" = JNum e -> now / 1000 < e ->
  Jwt.verify (Jwt.Signed secret payload) secret false now = Return payload.
Proof.
  intros Hnbf Hexp Hlt. rewrite Jwt_verify_not_before_passed by assumption.
  unfold Jwt.check_exp. rewrite Hexp.
  replace (e <=? now / 1000) with false by (symmetry; apply Z.leb_gt; lia).
  reflexivity.
Qed.

Lemma Jwt_verify_from_expiry (secret : string) (payload : object)
    (e now : Z) :
  not_before_passed payload now = true ->
  get payload "exp" = JNum e -> e <= now / 1000 ->
  Jwt.verify (Jwt.Signed secret payload) secret false now
  = Throw (Jwt.TokenExpiredError "jwt expired").
Proof.
  intros Hnbf Hexp Hle. rewrite Jwt_verify_not_before_passed by assumption.
  unfold Jwt.check_exp. rewrite Hexp.
  apply Z.leb_le in Hle. now rewrite Hle.
Qed.

Section ServiceFacts.

Variable JWT_SECRET : string.
Variable JWT_EXPIRES_IN : string.
Variable lifetime : Z.
Variable bcrypt_compare : string -> string -> bool.

Local Abbreviation generateJWT := (generateJWT JWT_SECRET lifetime).
Local Abbreviation loginUser := (loginUser JWT_SECRET JWT_EXPIRES_IN lifetime bcrypt_compare).
Local Abbreviation verifyToken := (verifyToken JWT_SECRET).
Local Abbreviation refreshToken := (refreshToken JWT_SECRET JWT_EXPIRES_IN lifetime).

(** The token [generateJWT] issues: signed under the secret, issued now,
    expiring one lifetime later, carrying the data of the user object. *)
Lemma generateJWT_claims (user : object) (now : Z) :
  exists payload,
    generateJWT user now = Jwt.Signed JWT_SECRET payload
    /\ get payload "iat" = JNum (now / 1000)
    /\ get payload "exp" = JNum (now / 1000 + lifetime)
    /\ (forall k, In k (keys payload) ->
          In k ["userId"; "email"; "role"; "refereeId"; "iat"; "exp"; "aud"; "iss"])
    /\ (is_data (get user "id") = true -> get payload "userId" = get user "id")
    /\ (is_data (get user "role") = true -> get payload "role" = get user "role")
    /\ get payload "nbf" = JUndefined.
Proof.
  unfold AuthService.generateJWT, Jwt.sign. eexists. split; [reflexivity |].
  assert (Hts : match or_else (get [("userId", get user "id");
                                    ("email", get user "email");
                                    ("role", get user "role");
                                    ("refereeId", get user "referee_id");
                                    ("iat", JNum (now / 1000))] "iat")
                              (JNum (now / 1000)) with
                | JNum t => t
                | _ => now / 1000
                end = now / 1000).
  { cbn. unfold or_else. simpl. now destruct (now / 1000 =? 0). }
  rewrite Hts. cbn [Jwt.expiresIn Jwt.audience Jwt.issuer].
  repeat split.
  - apply get_own, own_json_roundtrip; reflexivity.
  - apply get_own, own_json_roundtrip; reflexivity.
  - intros k Hk. apply keys_json_roundtrip in Hk. exact Hk.
  - intros Hd. apply get_own, own_json_roundtrip; [reflexivity | exact Hd].
  - intros Hd. apply get_own, own_json_roundtrip; [reflexivity | exact Hd].
  - unfold get. now rewrite own_json_roundtrip_none.
Qed.

(** A token of [generateJWT] has no not-before claim to wait for. *)
Lemma generateJWT_not_before (user : object) (issued now : Z) :
  exists payload,
    generateJWT user issued = Jwt.Signed JWT_SECRET payload
    /\ get payload "exp" = JNum (issued / 1000 + lifetime)
    /\ not_before_passed payload now = true.
Proof.
  destruct (generateJWT_claims user issued)
    as (payload & Htok & _ & Hexp & _ & _ & _ & Hnbf).
  exists payload. unfold not_before_passed. now rewrite Hnbf.
Qed.

(** The payload [generateJWT] signs for a row of the query by email. *)
Lemma generateJWT_row_by_email (u : user_row) (now : Z) :
  generateJWT (row_by_email u) now
  = Jwt.Signed JWT_SECRET
      (json_roundtrip
         [ ("userId", id u); ("email", JStr (email u));
           ("role", JStr (role u)); ("refereeId", JUndefined);
           ("iat", JNum (now / 1000));
           ("exp", JNum (now / 1000 + lifetime));
           ("aud", JStr "sgad-system"); ("iss", JStr "sgad-auth-service") ]).
Proof.
  unfold AuthService.generateJWT, Jwt.sign. cbn.
  unfold or_else. simpl. now destruct (now / 1000 =? 0).
Qed.

(** The same for a row of the query by id; either way it is the
    specification's payload. *)
Lemma generateJWT_row_by_id (u : user_row) (now : Z) :
  generateJWT (row_by_id u) now
  = Jwt.Signed JWT_SECRET
      (json_roundtrip
         [ ("userId", id u); ("email", JStr (email u));
           ("role", JStr (role u)); ("refereeId", JUndefined);
           ("iat", JNum (now / 1000));
           ("exp", JNum (now / 1000 + lifetime));
           ("aud", JStr "sgad-system"); ("iss", JStr "sgad-auth-service") ]).
Proof.
  unfold AuthService.generateJWT, Jwt.sign. cbn.
  unfold or_else. simpl. now destruct (now / 1000 =? 0).
Qed.

Lemma generateJWT_token_payload (u : user_row) (now : Z) :
  generateJWT (row_by_email u) now
  = Jwt.Signed JWT_SECRET
      (token_payload u (now / 1000) (now / 1000 + lifetime))
  /\ generateJWT (row_by_id u) now
     = Jwt.Signed JWT_SECRET
         (token_payload u (now / 1000) (now / 1000 + lifetime)).
Proof.
  rewrite generateJWT_row_by_email, generateJWT_row_by_id.
  unfold token_payload, json_roundtrip.
  destruct (id u); split; reflexivity.
Qed.

(** [loginUser] as one equation.  The branch that would report an inactive
    account is absent from it: the query by email only returns active rows. *)
Lemma loginUser_cases (email' password : string) (now : Z) (db : Db) :
  fst (loginUser email' password now db)
  = if nth 0 (faults db) false then Throw LoginFailed
    else
      match find (by_email_active (trim (toLowerCase email'))) (users db) with
      | None => Throw InvalidCredentials
      | Some u =>
          if negb (bcrypt_compare password (password_hash u))
          then Throw InvalidCredentials
          else if nth 1 (faults db) false then Throw LoginFailed
          else Return (mk_login_result true (login_principal u)
                         (generateJWT (row_by_email u) now) JWT_EXPIRES_IN)
      end.
Proof.
  unfold AuthService.loginUser, try_catch, bind, findUserByEmail, query.
  generalize (trim (toLowerCase email')) as e; intros e.
  destruct (faults db) as [| [] later] eqn:Hf; simpl; try reflexivity.
  all: destruct (find (by_email_active e) (users db)) as [u |] eqn:Hfind;
    simpl; try reflexivity.
  all: apply by_email_active_found in Hfind as (_ & _ & Hact).
  all: unfold bcrypt_compare_values, ret, throw; cbn.
  all: destruct (bcrypt_compare password (password_hash u)); cbn;
    try reflexivity.
  all: rewrite Hact; cbn.
  all: unfold updateLastLogin, query; cbn.
  - reflexivity.
  - destruct later as [| [] later']; reflexivity.
Qed.

(** [verifyToken] as one equation; here too the inactive branch is absent. *)
Lemma verifyToken_cases (token : Jwt.token) (now : Z) (db : Db) :
  fst (verifyToken token now db)
  = match Jwt.verify token JWT_SECRET false now with
    | Throw e =>
        if String.eqb (name e) "JsonWebTokenError" then Throw TokenMalformed
        else if String.eqb (name e) "TokenExpiredError" then Throw TokenExpired
        else Throw VerifyFailed
    | Return decoded =>
        if nth 0 (faults db) false then Throw VerifyFailed
        else
          match find (by_id_active (get decoded "userId")) (users db) with
          | None => Throw SubjectNotFound
          | Some u => Return (mk_verify_result true (verify_principal u) true)
          end
    end.
Proof.
  unfold AuthService.verifyToken, try_catch, bind, lift, findUserById, query.
  destruct (Jwt.verify token JWT_SECRET false now) as [decoded | e] eqn:Hjwt.
  - generalize (get decoded "userId") as i; intros i.
    destruct (faults db) as [| [] later] eqn:Hf; simpl; try reflexivity.
    all: destruct (find (by_id_active i) (users db)) as [u |] eqn:Hfind;
      simpl; try reflexivity.
    all: apply by_id_active_found in Hfind as (_ & _ & _ & Hact).
    all: cbn; rewrite Hact; reflexivity.
  - apply Jwt_verify_throws in Hjwt
      as [-> | [-> | [-> | [-> | [-> | [-> _]]]]]]; reflexivity.
Qed.

(** [refreshToken] as one equation: every failure is the same error. *)
Lemma refreshToken_cases (token : Jwt.token) (now : Z) (db : Db) :
  fst (refreshToken token now db)
  = match Jwt.verify token JWT_SECRET true now with
    | Throw _ => Throw RefreshFailed
    | Return decoded =>
        if nth 0 (faults db) false then Throw RefreshFailed
        else
          match find (by_id_active (get decoded "userId")) (users db) with
          | None => Throw RefreshFailed
          | Some u =>
              Return (mk_refresh_result true (generateJWT (row_by_id u) now)
                        JWT_EXPIRES_IN)
          end
    end.
Proof.
  unfold AuthService.refreshToken, try_catch, bind, lift, findUserById, query.
  destruct (Jwt.verify token JWT_SECRET true now) as [decoded | e] eqn:Hjwt;
    [| reflexivity].
  generalize (get decoded "userId") as i; intros i.
  destruct (faults db) as [| [] later] eqn:Hf; simpl; try reflexivity.
  all: destruct (find (by_id_active i) (users db)) as [u |] eqn:Hfind;
    simpl; try reflexivity.
  all: apply by_id_active_found in Hfind as (_ & _ & _ & Hact).
  all: cbn; rewrite Hact; reflexivity.
Qed.

End ServiceFacts.

(* ------------------------------------------------------------------ *)
(** ** Login *)

Section LoginClaims.

Variable JWT_SECRET : string.
Variable JWT_EXPIRES_IN : string.
Variable lifetime : Z.
Variable bcrypt_compare : string -> string -> bool.

Local Abbreviation generateJWT := (generateJWT JWT_SECRET lifetime).
Local Abbreviation loginUser :=
  (loginUser JWT_SECRET JWT_EXPIRES_IN lifetime bcrypt_compare).
Local Abbreviation verifyToken := (verifyToken JWT_SECRET).

(** C6.  A login whose email the store does not resolve and a login whose
    email resolves to a user whose password does not match end in the same
    error, name and message alike. *)
Theorem loginUser_unknown_email_like_wrong_password
    (email1 password1 : string) (now1 : Z) (db1 : Db)
    (email2 password2 : string) (now2 : Z) (db2 : Db) (u : user_row)
    (Hq1 : query_ok 0 db1)
    (Hnone : find (by_email_active (trim (toLowerCase email1))) (users db1)
             = None)
    (Hq2 : query_ok 0 db2)
    (Hsome : find (by_email_active (trim (toLowerCase email2))) (users db2)
             = Some u)
    (Hbad : bcrypt_compare password2 (password_hash u) = false) :
  fst (loginUser email1 password1 now1 db1) = Throw InvalidCredentials
  /\ fst (loginUser email2 password2 now2 db2) = Throw InvalidCredentials
  /\ fst (loginUser email1 password1 now1 db1)
     = fst (loginUser email2 password2 now2 db2).
Proof.
  unfold query_ok in Hq1, Hq2.
  rewrite !loginUser_cases, Hq1, Hq2, Hnone, Hsome, Hbad. simpl. auto.
Qed.

(** C7, amended.  Once the lookup, the password and the active check have
    succeeded, the update of the last login decides: when that query is
    rejected the login ends in the generic login error, and when it goes
    through the login returns the Principal and a token issued now. *)
Theorem loginUser_last_login_update_decides
    (email' password : string) (now : Z) (db : Db) (u : user_row)
    (Hq : query_ok 0 db)
    (Hsome : find (by_email_active (trim (toLowerCase email'))) (users db)
             = Some u)
    (Hpw : bcrypt_compare password (password_hash u) = true) :
  is_active u = true
  /\ (nth 1 (faults db) false = true ->
      fst (loginUser email' password now db) = Throw LoginFailed)
  /\ (query_ok 1 db ->
      fst (loginUser email' password now db)
      = Return (mk_login_result true (login_principal u)
                  (generateJWT (row_by_email u) now) JWT_EXPIRES_IN)).
Proof.
  unfold query_ok in *. rewrite loginUser_cases, Hq, Hsome, Hpw. simpl.
  split; [now apply by_email_active_found in Hsome |].
  split; intros ->; reflexivity.
Qed.

(** C9.  What a successful login returns is, member for member, the
    projection [login_principal] of a stored row, the token signed over the
    payload [token_payload] of that row, and the configured lifetime; what a
    successful verification returns is the projection [verify_principal] and
    two flags; what a successful refresh returns is a token over
    [token_payload] again.  None of them has a member for the password hash,
    and none of them depends on the hash the row stores: the row with any
    other hash has the same projections and the same payload.  What the
    three throw is one of seven fixed errors. *)
Theorem principal_without_password_hash :
  (forall email' password now db r,
      fst (loginUser email' password now db) = Return r ->
      (exists u,
          In u (users db)
          /\ login_user r = login_principal u
          /\ r = mk_login_result true (login_principal u)
                   (Jwt.Signed JWT_SECRET
                      (token_payload u (now / 1000) (now / 1000 + lifetime)))
                   JWT_EXPIRES_IN)
      /\ keys (login_user r)
         = ["id"; "email"; "role"; "firstName"; "lastName"; "phone";
            "refereeId"; "licenseNumber"; "specialties"; "certificationLevel"]
      /\ ~ In "password_hash" (keys (login_user r))
      /\ ~ In "password_hash" (claims (login_token r)))
  /\ (forall token now db r,
         fst (verifyToken token now db) = Return r ->
         (exists u,
             In u (users db)
             /\ verify_user r = verify_principal u
             /\ r = mk_verify_result true (verify_principal u) true)
         /\ keys (verify_user r)
            = ["id"; "email"; "role"; "firstName"; "lastName"; "phone";
               "refereeId"; "licenseNumber"; "specialties"]
         /\ ~ In "password_hash" (keys (verify_user r)))
  /\ (forall token now db r,
         fst (refreshToken JWT_SECRET JWT_EXPIRES_IN lifetime token now db)
         = Return r ->
         exists u,
           In u (users db)
           /\ r = mk_refresh_result true
                    (Jwt.Signed JWT_SECRET
                       (token_payload u (now / 1000) (now / 1000 + lifetime)))
                    JWT_EXPIRES_IN)
  /\ (forall u h issuedAt expiresAt,
         login_principal (rehash u h) = login_principal u
         /\ verify_principal (rehash u h) = verify_principal u
         /\ token_payload (rehash u h) issuedAt expiresAt
            = token_payload u issuedAt expiresAt)
  /\ (forall email' password token now db e,
         (fst (loginUser email' password now db) = Throw e ->
          e = InvalidCredentials \/ e = LoginFailed)
         /\ (fst (verifyToken token now db) = Throw e ->
             e = TokenMalformed \/ e = TokenExpired \/ e = SubjectNotFound
             \/ e = VerifyFailed)
         /\ (fst (refreshToken JWT_SECRET JWT_EXPIRES_IN lifetime token now db)
             = Throw e ->
             e = RefreshFailed)).
Proof.
  split; [| split; [| split; [| split;
    [intros u h issuedAt expiresAt; repeat split |]]]];
    [| | | intros email' password token now db e;
           split; [| split] ].
  - intros email' password now db r H. rewrite loginUser_cases in H.
    destruct (nth 0 (faults db) false); [discriminate |].
    destruct (find _ (users db)) as [u |] eqn:Hfind; [| discriminate].
    destruct (negb _); [discriminate |].
    destruct (nth 1 (faults db) false); [discriminate |].
    injection H as <-. cbn [login_user login_token].
    apply by_email_active_found in Hfind as (Hin & _ & _).
    destruct (generateJWT_token_payload JWT_SECRET lifetime u now)
      as [-> _].
    split; [exists u; repeat split; assumption |]. split; [reflexivity |].
    split; [cbn; intuition discriminate |].
    unfold claims, token_payload, keys. rewrite map_app.
    intros Hin'. apply in_app_or in Hin' as [Hin' | Hin'].
    + destruct (is_data (id u)); cbn in Hin'; intuition discriminate.
    + cbn in Hin'. intuition discriminate.
  - intros token now db r H. rewrite verifyToken_cases in H.
    destruct (Jwt.verify token JWT_SECRET false now) as [decoded | e].
    + destruct (nth 0 (faults db) false); [discriminate |].
      destruct (find _ (users db)) as [u |] eqn:Hfind; [| discriminate].
      injection H as <-. cbn [verify_user].
      apply by_id_active_found in Hfind as (Hin & _).
      split; [exists u; repeat split; assumption |]. split; [reflexivity |].
      cbn; intuition discriminate.
    + repeat (destruct (String.eqb (name e) _); try discriminate).
  - intros token now db r H. rewrite refreshToken_cases in H.
    destruct (Jwt.verify token JWT_SECRET true now) as [decoded | e];
      [| discriminate].
    destruct (nth 0 (faults db) false); [discriminate |].
    destruct (find _ (users db)) as [u |] eqn:Hfind; [| discriminate].
    injection H as <-.
    apply by_id_active_found in Hfind as (Hin & _).
    destruct (generateJWT_token_payload JWT_SECRET lifetime u now)
      as [_ ->].
    exists u. split; [assumption | reflexivity].
  - rewrite loginUser_cases.
    destruct (nth 0 (faults db) false); [intros [= <-]; auto |].
    destruct (find _ (users db)) as [u |]; [| intros [= <-]; auto].
    destruct (negb _); [intros [= <-]; auto |].
    destruct (nth 1 (faults db) false); [intros [= <-]; auto | discriminate].
  - rewrite verifyToken_cases.
    destruct (Jwt.verify token JWT_SECRET false now) as [decoded | err].
    + destruct (nth 0 (faults db) false); [intros [= <-]; auto |].
      destruct (find _ (users db)); [discriminate | intros [= <-]; auto].
    + destruct (String.eqb (name err) _); [intros [= <-]; auto |].
      destruct (String.eqb (name err) _); intros [= <-]; auto.
  - rewrite refreshToken_cases.
    destruct (Jwt.verify token JWT_SECRET true now) as [decoded | err];
      [| now intros [= <-]].
    destruct (nth 0 (faults db) false); [now intros [= <-] |].
    destruct (find _ (users db)); [discriminate | now intros [= <-]].
Qed.

(** C8.  A token issued for a user verifies, before it expires and as long
    as the lookup by id resolves to an active record [u], to a Principal with
    the id, email and role of [u]: of the very record the token was issued
    from when that is unchanged ([issued_for = u]), of its current state when
    it was edited in between. *)
Theorem verifyToken_generateJWT_roundtrip
    (issued_for u : user_row) (issued now : Z) (db : Db)
    (Hq : query_ok 0 db)
    (Hfind : find (by_id_active (id issued_for)) (users db) = Some u)
    (Hfresh : now / 1000 < issued / 1000 + lifetime) :
  exists r,
    fst (verifyToken (generateJWT (row_by_email issued_for) issued) now db)
    = Return r
    /\ get (verify_user r) "id" = id issued_for
    /\ get (verify_user r) "id" = id u
    /\ get (verify_user r) "email" = JStr (email u)
    /\ get (verify_user r) "role" = JStr (role u).
Proof.
  destruct (generateJWT_claims JWT_SECRET lifetime
              (row_by_email issued_for) issued)
    as (payload & Htok & _ & Hexp & _ & Hid & _ & Hnbf).
  pose proof (by_id_active_found _ _ _ Hfind) as (_ & Hsame & Hdata & _).
  specialize (Hid Hdata). cbn in Hid.
  exists (mk_verify_result true (verify_principal u) true).
  rewrite verifyToken_cases, Htok.
  assert (Hpassed : not_before_passed payload now = true)
    by (unfold not_before_passed; now rewrite Hnbf).
  rewrite (Jwt_verify_before_expiry _ _ _ _ Hpassed Hexp Hfresh).
  unfold query_ok in Hq. rewrite Hq, Hid, Hfind. repeat split.
  cbn. exact Hsame.
Qed.

End LoginClaims.

Lemma loginUser_unknown_email_like_wrong_password_witness :
  fst (Sample.login "nadie@sgad.com" "correct" Sample.t0 (Sample.db true []))
  = fst (Sample.login " Ana@SGAD.com " "wrong-pw" Sample.t0 (Sample.db true [])).
Proof.
  apply (loginUser_unknown_email_like_wrong_password
           Sample.secret "24h" 86400 Sample.bcrypt
           "nadie@sgad.com" "correct" Sample.t0 (Sample.db true [])
           " Ana@SGAD.com " "wrong-pw" Sample.t0 (Sample.db true [])
           Sample.ana); reflexivity.
Defined.

(** C7, as stated, fails on the code: the lookup finds [ana], the password
    matches and she is active, the update of the last login is rejected by the
    pool, and the login ends in the generic error instead of returning the
    Principal and a token. *)
Lemma loginUser_aborted_by_last_login_update :
  find (by_email_active "ana@sgad.com") (users (Sample.db true [false; true]))
  = Some Sample.ana
  /\ Sample.bcrypt "correct" (password_hash Sample.ana) = true
  /\ is_active Sample.ana = true
  /\ fst (Sample.login "ana@sgad.com" "correct" Sample.t0
            (Sample.db true [false; true]))
     = Throw LoginFailed.
Proof. repeat split. Qed.

Lemma loginUser_last_login_update_decides_witness :
  fst (Sample.login "ana@sgad.com" "correct" Sample.t0
         (Sample.db true [false; true])) = Throw LoginFailed
  /\ fst (Sample.login "ana@sgad.com" "correct" Sample.t0 (Sample.db true []))
     = Return (mk_login_result true (login_principal Sample.ana)
                 (Sample.issue (row_by_email Sample.ana) Sample.t0) "24h").
Proof.
  split.
  - apply (loginUser_last_login_update_decides
             Sample.secret "24h" 86400 Sample.bcrypt
             "ana@sgad.com" "correct" Sample.t0 (Sample.db true [false; true])
             Sample.ana); reflexivity.
  - apply (loginUser_last_login_update_decides
             Sample.secret "24h" 86400 Sample.bcrypt
             "ana@sgad.com" "correct" Sample.t0 (Sample.db true [])
             Sample.ana); reflexivity.
Defined.

Lemma principal_without_password_hash_witness :
  (exists u,
      In u (users (Sample.db true []))
      /\ fst (Sample.login "ana@sgad.com" "correct" Sample.t0
                (Sample.db true []))
         = Return
             (mk_login_result true (login_principal u)
                (Jwt.Signed Sample.secret
                   (token_payload u 1700000000 1700086400)) "24h"))
  /\ ~ In "password_hash"
          (keys (verify_user
                   (mk_verify_result true (verify_principal Sample.ana) true))).
Proof.
  split.
  - destruct (proj1 (principal_without_password_hash
                       Sample.secret "24h" 86400 Sample.bcrypt)
                    "ana@sgad.com" "correct" Sample.t0 (Sample.db true []) _
                    eq_refl) as ((u & Hin & _ & Hr) & _).
    exists u. split; [exact Hin |].
    exact (eq_trans eq_refl (f_equal Return Hr)).
  - apply (proj1 (proj2 (principal_without_password_hash
                           Sample.secret "24h" 86400 Sample.bcrypt))
                 (Sample.issue (row_by_email Sample.ana) Sample.t0)
                 (Sample.t0 + 5000) (Sample.db true []) _ eq_refl).
Defined.

Lemma verifyToken_generateJWT_roundtrip_witness :
  exists r,
    fst (Sample.verify (Sample.issue (row_by_email Sample.ana) Sample.t0)
           (Sample.t0 + 3600000) (Sample.db true []))
    = Return r
    /\ get (verify_user r) "id" = JStr "42"
    /\ get (verify_user r) "email" = JStr "ana@sgad.com"
    /\ get (verify_user r) "role" = JStr "arbitro".
Proof.
  destruct (verifyToken_generateJWT_roundtrip Sample.secret 86400
              Sample.ana Sample.ana Sample.t0 (Sample.t0 + 3600000)
              (Sample.db true []) eq_refl eq_refl eq_refl)
    as (r & Hr & _ & Hid & Hemail & Hrole).
  exists r. repeat split; assumption.
Defined.

(** C1: the code departs from the claim.  [luis] is stored, his password
    matches and his active flag is false; the query by email filters on
    [is_active = true], finds nothing, and the login ends in
    [InvalidCredentials].  No login ever ends in [AccountInactive]. *)
Theorem loginUser_never_reports_inactive_account :
  (In (Sample.luis false) (users (Sample.db false []))
   /\ Sample.bcrypt "hunter22" (password_hash (Sample.luis false)) = true
   /\ is_active (Sample.luis false) = false
   /\ fst (Sample.login "luis@sgad.com" "hunter22" Sample.t0
             (Sample.db false []))
      = Throw InvalidCredentials)
  /\ (forall secret expires lifetime bcrypt_compare email' password now db,
         fst (loginUser secret expires lifetime bcrypt_compare
                email' password now db)
         <> Throw AccountInactive).
Proof.
  split.
  - repeat split. simpl. auto.
  - intros. rewrite loginUser_cases.
    destruct (nth 0 (faults db) false); [discriminate |].
    destruct (find _ (users db)); [| discriminate].
    destruct (negb _); [discriminate |].
    destruct (nth 1 (faults db) false); discriminate.
Qed.

(** C2: the code departs from the claim.  [luis] logs in while active; he is
    then deactivated; a minute later, a day before the token expires, the
    query by id filters on [is_active = true], finds nothing, and the
    verification ends in [SubjectNotFound].  No verification ever ends in
    [SubjectInactive]. *)
Theorem verifyToken_never_reports_inactive_subject :
  (exists r,
      fst (Sample.login "luis@sgad.com" "hunter22" Sample.t0
             (Sample.db true []))
      = Return r
      /\ claim (login_token r) "exp" = JNum ((Sample.t0 + 60000) / 1000 + 86340)
      /\ In (Sample.luis false) (users (Sample.db false []))
      /\ fst (Sample.verify (login_token r) (Sample.t0 + 60000)
                (Sample.db false []))
         = Throw SubjectNotFound)
  /\ (forall secret token now db,
         fst (verifyToken secret token now db) <> Throw SubjectInactive).
Proof.
  split.
  - eexists. split; [reflexivity |]. repeat split. simpl. auto.
  - intros. rewrite verifyToken_cases.
    destruct (Jwt.verify token secret false now) as [decoded | e].
    + destruct (nth 0 (faults db) false); [discriminate |].
      destruct (find _ (users db)); discriminate.
    + repeat (destruct (String.eqb (name e) _); try discriminate).
Qed.

(* ------------------------------------------------------------------ *)
(** ** Refresh *)


Section RefreshClaims.

Variable JWT_SECRET : string.
Variable JWT_EXPIRES_IN : string.
Variable lifetime : Z.

Local Abbreviation generateJWT := (generateJWT JWT_SECRET lifetime).
Local Abbreviation verifyToken := (verifyToken JWT_SECRET).
Local Abbreviation refreshToken :=
  (refreshToken JWT_SECRET JWT_EXPIRES_IN lifetime).


End RefreshClaims.


(* ------------------------------------------------------------------ *)
(** ** What the service does to the database *)

Lemma prefix_split (p s : string) :
  String.prefix p s = true -> s = p ++ substring_from (String.length p) s.
Proof.
  revert s. induction p as [| c p IH]; intros s H; [reflexivity |].
  destruct s as [| d s]; [discriminate |]. simpl in H.
  destruct (Ascii.ascii_dec c d) as [<- |]; [| discriminate].
  simpl. f_equal. now apply IH.
Qed.

Lemma prefix_append (p t : string) : String.prefix p (p ++ t) = true.
Proof.
  induction p as [| c p IH]; simpl; [now destruct t |].
  destruct (Ascii.ascii_dec c c); [exact IH | congruence].
Qed.

(** The header test of the middleware and of the controllers: exactly the
    headers made of [Bearer], one space and a credential pass. *)
Lemma bearer_header (h : string) :
  negb (truthy (JStr h)) || negb (startsWith h "Bearer ") = false
  <-> exists t, h = "Bearer " ++ t.
Proof.
  unfold startsWith. split.
  - intros H. apply orb_false_iff in H as [_ H].
    apply negb_false_iff in H. apply prefix_split in H. eauto.
  - intros [t ->]. now rewrite prefix_append.
Qed.

Section ServiceState.

Variable JWT_SECRET : string.
Variable JWT_EXPIRES_IN : string.
Variable lifetime : Z.
Variable bcrypt_compare : string -> string -> bool.

Local Abbreviation loginUser :=
  (loginUser JWT_SECRET JWT_EXPIRES_IN lifetime bcrypt_compare).
Local Abbreviation verifyToken := (verifyToken JWT_SECRET).
Local Abbreviation refreshToken :=
  (refreshToken JWT_SECRET JWT_EXPIRES_IN lifetime).

(** The database [verifyToken] leaves: untouched when the token is refused
    by [jwt.verify], one query further otherwise. *)
Lemma verifyToken_state (token : Jwt.token) (now : Z) (db : Db) :
  snd (verifyToken token now db)
  = match Jwt.verify token JWT_SECRET false now with
    | Throw _ => db
    | Return _ => mk_db (users db) (tl (faults db))
    end.
Proof.
  unfold AuthService.verifyToken, try_catch, bind, lift, findUserById, query.
  destruct (Jwt.verify token JWT_SECRET false now) as [decoded | e] eqn:Hjwt.
  - generalize (get decoded "userId") as i; intros i.
    destruct (faults db) as [| [] later] eqn:Hf; simpl; try reflexivity.
    all: destruct (find (by_id_active i) (users db)) as [u |] eqn:Hfind;
      simpl; try reflexivity.
    all: apply by_id_active_found in Hfind as (_ & _ & _ & Hact).
    all: cbn; rewrite Hact; reflexivity.
  - apply Jwt_verify_throws in Hjwt
      as [-> | [-> | [-> | [-> | [-> | [-> _]]]]]]; reflexivity.
Qed.

Lemma refreshToken_state (token : Jwt.token) (now : Z) (db : Db) :
  snd (refreshToken token now db)
  = match Jwt.verify token JWT_SECRET true now with
    | Throw _ => db
    | Return _ => mk_db (users db) (tl (faults db))
    end.
Proof.
  unfold AuthService.refreshToken, try_catch, bind, lift, findUserById, query.
  destruct (Jwt.verify token JWT_SECRET true now) as [decoded | e] eqn:Hjwt;
    [| reflexivity].
  generalize (get decoded "userId") as i; intros i.
  destruct (faults db) as [| [] later] eqn:Hf; simpl; try reflexivity.
  all: destruct (find (by_id_active i) (users db)) as [u |] eqn:Hfind;
    simpl; try reflexivity.
  all: apply by_id_active_found in Hfind as (_ & _ & _ & Hact).
  all: cbn; rewrite Hact; reflexivity.
Qed.

(** The table [loginUser] leaves: the rows with the id of the user who logged
    in have [updated_at] set to now, and nothing else is written; a login
    that fails writes nothing. *)
Lemma loginUser_table (email' password : string) (now : Z) (db : Db) :
  users (snd (loginUser email' password now db))
  = match fst (loginUser email' password now db),
          find (by_email_active (trim (toLowerCase email'))) (users db) with
    | Return _, Some u =>
        map (fun v => if sql_eq (id v) (id u) then touch now v else v)
            (users db)
    | _, _ => users db
    end.
Proof.
  unfold AuthService.loginUser, try_catch, bind, findUserByEmail, query.
  generalize (trim (toLowerCase email')) as e; intros e.
  destruct (faults db) as [| [] later] eqn:Hf; simpl; try reflexivity.
  all: destruct (find (by_email_active e) (users db)) as [u |] eqn:Hfind;
    simpl; try reflexivity.
  all: apply by_email_active_found in Hfind as (_ & _ & Hact).
  all: unfold bcrypt_compare_values, ret, throw; cbn.
  all: destruct (bcrypt_compare password (password_hash u)); cbn;
    try reflexivity.
  all: rewrite Hact; cbn.
  all: unfold updateLastLogin, query; cbn.
  - reflexivity.
  - destruct later as [| [] later']; reflexivity.
Qed.

End ServiceState.

(* ------------------------------------------------------------------ *)
(** ** Authentication gates *)

Section Gates.

Variable JWT_SECRET : string.
Variable decode : string -> Jwt.token.

Local Abbreviation verifyToken := (verifyToken JWT_SECRET).
Local Abbreviation requireAuth := (requireAuth JWT_SECRET decode).
Local Abbreviation optionalAuth := (optionalAuth JWT_SECRET decode).

(** What a verification that returns has gone through. *)
Lemma verifyToken_returns (token : Jwt.token) (now : Z) (db : Db)
    (r : verify_result) :
  fst (verifyToken token now db) = Return r ->
  exists decoded u,
    Jwt.verify token JWT_SECRET false now = Return decoded
    /\ query_ok 0 db
    /\ find (by_id_active (get decoded "userId")) (users db) = Some u
    /\ r = mk_verify_result true (verify_principal u) true.
Proof.
  rewrite verifyToken_cases.
  destruct (Jwt.verify token JWT_SECRET false now) as [decoded | e].
  - unfold query_ok. destruct (nth 0 (faults db) false); [discriminate |].
    destruct (find _ (users db)) as [u |] eqn:Hfind; [| discriminate].
    intros [= <-]. now exists decoded, u.
  - repeat (destruct (String.eqb (name e) _); try discriminate).
Qed.

Lemma requireAuth_bearer (req : request) (now : Z) (db : Db) (t : string) :
  http_authorization req = Some ("Bearer " ++ t) ->
  requireAuth req now db
  = match verifyToken (decode t) now db with
    | (Return r, db') => (Return (Continue (attach req (verify_user r) t)), db')
    | (Throw e, db') => (Return (Answer (token_invalid (message e))), db')
    end.
Proof.
  intros Hh. unfold BearerAuth.requireAuth, try_catch, bind. rewrite Hh.
  replace (negb (truthy (JStr ("Bearer " ++ t)))
           || negb (startsWith ("Bearer " ++ t) "Bearer ")) with false
    by (symmetry; apply bearer_header; eauto).
  cbn [substring_from append].
  now destruct (verifyToken (decode t) now db) as [[r | e] db'].
Qed.

Lemma requireAuth_no_bearer (req : request) (now : Z) (db : Db) :
  (forall t, http_authorization req <> Some ("Bearer " ++ t)) ->
  requireAuth req now db = (Return (Answer token_required), db).
Proof.
  intros Hno. unfold BearerAuth.requireAuth, try_catch.
  destruct (http_authorization req) as [h |]; [| reflexivity].
  destruct (negb (truthy (JStr h)) || negb (startsWith h "Bearer ")) eqn:Hb;
    [reflexivity |].
  apply bearer_header in Hb as [t ->]. now elim (Hno t).
Qed.

Lemma optionalAuth_bearer (req : request) (now : Z) (db : Db) (t : string) :
  http_authorization req = Some ("Bearer " ++ t) ->
  optionalAuth req now db
  = match verifyToken (decode t) now db with
    | (Return r, db') => (Return (Continue (attach req (verify_user r) t)), db')
    | (Throw e, db') => (Return (Continue req), db')
    end.
Proof.
  intros Hh. unfold BearerAuth.optionalAuth, try_catch, bind. rewrite Hh.
  replace (negb (truthy (JStr ("Bearer " ++ t)))
           || negb (startsWith ("Bearer " ++ t) "Bearer ")) with false
    by (symmetry; apply bearer_header; eauto).
  cbn [substring_from append].
  now destruct (verifyToken (decode t) now db) as [[r | e] db'].
Qed.

Lemma optionalAuth_no_bearer (req : request) (now : Z) (db : Db) :
  (forall t, http_authorization req <> Some ("Bearer " ++ t)) ->
  optionalAuth req now db = (Return (Continue req), db).
Proof.
  intros Hno. unfold BearerAuth.optionalAuth, try_catch.
  destruct (http_authorization req) as [h |]; [| reflexivity].
  destruct (negb (truthy (JStr h)) || negb (startsWith h "Bearer ")) eqn:Hb;
    [reflexivity |].
  apply bearer_header in Hb as [t ->]. now elim (Hno t).
Qed.

Lemma bearer_or_not (req : request) :
  (exists t, http_authorization req = Some ("Bearer " ++ t))
  \/ (forall t, http_authorization req <> Some ("Bearer " ++ t)).
Proof.
  destruct (http_authorization req) as [h |]; [| right; discriminate].
  destruct (negb (truthy (JStr h)) || negb (startsWith h "Bearer ")) eqn:Hb.
  - right. intros t [= Heq].
    assert (Hf : negb (truthy (JStr h)) || negb (startsWith h "Bearer ") = false)
      by (apply bearer_header; exists t; exact Heq).
    congruence.
  - left. apply bearer_header in Hb as [t ->]. eauto.
Qed.

(** X1.  [requireAuth] answers "token required" exactly when the
    Authorization header is absent or is not [Bearer], one space and a
    credential (the scheme is case sensitive, the credential may be empty);
    it then has not queried the database. *)
Theorem requireAuth_header_gate (req : request) (now : Z) (db : Db) :
  (fst (requireAuth req now db) = Return (Answer token_required)
   <-> forall t, http_authorization req <> Some ("Bearer " ++ t))
  /\ ((forall t, http_authorization req <> Some ("Bearer " ++ t)) ->
      snd (requireAuth req now db) = db).
Proof.
  split.
  - split.
    + intros H t Hh. rewrite (requireAuth_bearer _ _ _ _ Hh) in H.
      destruct (verifyToken (decode t) now db) as [[r | e] db'];
        discriminate H.
    + intros Hno. now rewrite requireAuth_no_bearer.
  - intros Hno. now rewrite requireAuth_no_bearer.
Qed.

(** X2.  [requireAuth] never throws and has two outcomes only: a 401 answer,
    or [next()] on the request with [req.token] set to the credential and
    [req.user] set to the projection of a stored row that is active now. *)
Theorem requireAuth_passes_active_principals_only
    (req : request) (now : Z) (db : Db) :
  (exists a, fst (requireAuth req now db) = Return (Answer a)
             /\ status_code a = 401)
  \/ (exists t u,
         http_authorization req = Some ("Bearer " ++ t)
         /\ In u (users db) /\ is_active u = true
         /\ fst (requireAuth req now db)
            = Return (Continue (attach req (verify_principal u) t))).
Proof.
  destruct (bearer_or_not req) as [[t Hh] | Hno].
  - rewrite (requireAuth_bearer _ _ _ _ Hh).
    destruct (verifyToken (decode t) now db) as [[r | e] db'] eqn:Hv.
    + right. assert (Hr : fst (verifyToken (decode t) now db) = Return r)
        by now rewrite Hv.
      apply verifyToken_returns in Hr as (decoded & u & _ & _ & Hfind & ->).
      apply by_id_active_found in Hfind as (Hin & _ & _ & Hact).
      exists t, u. auto.
    + left. eexists. split; reflexivity.
  - left. rewrite requireAuth_no_bearer by assumption.
    eexists. split; reflexivity.
Qed.

(** X3.  [optionalAuth] never answers and never throws: it always calls
    [next()], on the request [requireAuth] would have passed on when
    [requireAuth] lets the request through, and on the request as it came
    otherwise; it queries the database as [requireAuth] does. *)
Theorem optionalAuth_is_requireAuth_without_refusal
    (req : request) (now : Z) (db : Db) :
  (exists req',
      fst (optionalAuth req now db) = Return (Continue req')
      /\ (fst (requireAuth req now db) = Return (Continue req')
          \/ (req' = req
              /\ exists a, fst (requireAuth req now db) = Return (Answer a))))
  /\ snd (optionalAuth req now db) = snd (requireAuth req now db).
Proof.
  destruct (bearer_or_not req) as [[t Hh] | Hno].
  - rewrite (requireAuth_bearer _ _ _ _ Hh), (optionalAuth_bearer _ _ _ _ Hh).
    destruct (verifyToken (decode t) now db) as [[r | e] db']; cbn; eauto 8.
  - rewrite requireAuth_no_bearer, optionalAuth_no_bearer by assumption.
    cbn; eauto 8.
Qed.

End Gates.

(* ------------------------------------------------------------------ *)
(** ** Gates in sequence *)

Section Pipelines.

Variable JWT_SECRET : string.
Variable decode : string -> Jwt.token.

Local Abbreviation verifyToken := (verifyToken JWT_SECRET).
Local Abbreviation requireAuth := (requireAuth JWT_SECRET decode).
Local Abbreviation optionalAuth := (optionalAuth JWT_SECRET decode).

(** A token signed under the secret, with no not-before claim pending, not
    yet expired, whose subject the lookup resolves: [verifyToken] returns the
    stored projection. *)
Lemma verifyToken_accepts (payload : object) (e now : Z) (db : Db)
    (u : user_row) :
  not_before_passed payload now = true ->
  get payload "exp" = JNum e -> now / 1000 < e -> query_ok 0 db ->
  find (by_id_active (get payload "userId")) (users db) = Some u ->
  verifyToken (Jwt.Signed JWT_SECRET payload) now db
  = (Return (mk_verify_result true (verify_principal u) true),
     mk_db (users db) (tl (faults db))).
Proof.
  intros Hnbf Hexp Hlt Hq Hfind.
  pose proof (Jwt_verify_before_expiry JWT_SECRET payload e now Hnbf Hexp Hlt)
    as Hjwt.
  apply injective_projections.
  - rewrite verifyToken_cases, Hjwt. unfold query_ok in Hq.
    now rewrite Hq, Hfind.
  - now rewrite verifyToken_state, Hjwt.
Qed.

(** X4.  Behind [requireAuth], the role gate decides on the role the store
    holds now for the subject of the token; the role claim inside the token
    is never read.  For a well signed, unexpired token with no not-before
    claim pending, whose subject resolves to the active row [u]: the request
    goes on iff [u]'s stored role is among the allowed ones, and is answered
    403 otherwise. *)
Theorem auth_then_role_uses_stored_role
    (allowedRoles : allowed) (req : request) (now : Z) (db : Db)
    (t : string) (payload : object) (e : Z) (u : user_row)
    (Hh : http_authorization req = Some ("Bearer " ++ t))
    (Htok : decode t = Jwt.Signed JWT_SECRET payload)
    (Hnbf : not_before_passed payload now = true)
    (Hexp : get payload "exp" = JNum e) (Hlt : now / 1000 < e)
    (Hq : query_ok 0 db)
    (Hfind : find (by_id_active (get payload "userId")) (users db) = Some u) :
  (In (JStr (role u)) (normalize allowedRoles) ->
   fst (auth_then_role JWT_SECRET decode allowedRoles req now db)
   = Return (Continue (attach req (verify_principal u) t)))
  /\ (~ In (JStr (role u)) (normalize allowedRoles) ->
      exists a,
        fst (auth_then_role JWT_SECRET decode allowedRoles req now db)
        = Return (Answer a)
        /\ status_code a = 403).
Proof.
  unfold auth_then_role, bind.
  rewrite (requireAuth_bearer _ _ _ _ _ _ Hh), Htok.
  rewrite (verifyToken_accepts _ _ _ _ _ Hnbf Hexp Hlt Hq Hfind).
  cbn [verify_user fst snd ret].
  unfold requireRole, gate_view, attach;
    cbv beta iota zeta delta [req_user http_user http_params].
  change (get (verify_principal u) "role") with (JStr (role u)).
  destruct (includes (normalize allowedRoles) (JStr (role u))) eqn:Hinc.
  - split; [reflexivity |]. intros Hnot. apply includes_In in Hinc. tauto.
  - split.
    + intros Hin. apply includes_In in Hin. congruence.
    + intros _. eexists. split; reflexivity.
Qed.

(** X5.  Behind [optionalAuth], a request that arrives without a Principal
    is answered 401 by the role gate exactly when [requireAuth] would have
    refused it, whatever the allowed roles. *)
Theorem optional_then_role_refuses_anonymous
    (allowedRoles : allowed) (req : request) (now : Z) (db : Db)
    (Hfresh : http_user req = None) :
  (exists a,
      fst (optional_then_role JWT_SECRET decode allowedRoles req now db)
      = Return (Answer a)
      /\ status_code a = 401)
  <-> exists a', fst (requireAuth req now db) = Return (Answer a').
Proof.
  unfold optional_then_role, bind.
  assert (Hanon : forall r : request, http_user r = None ->
            exists a, of_gate r (requireRole allowedRoles (gate_view r))
                      = Answer a /\ status_code a = 401).
  { intros r Hr. unfold requireRole, gate_view;
      cbv beta iota zeta delta [req_user]. rewrite Hr.
    eexists. split; reflexivity. }
  assert (Hknown : forall (r : request) (p : object) (t : string) a,
            of_gate (attach r p t)
                    (requireRole allowedRoles (gate_view (attach r p t)))
            = Answer a -> status_code a <> 401).
  { intros r p t a. unfold requireRole, gate_view, attach;
      cbv beta iota zeta delta [req_user http_user].
    destruct (negb _); cbn; [| discriminate].
    intros [= <-]. cbn. discriminate. }
  destruct (bearer_or_not req) as [[t Hh] | Hno].
  - rewrite (requireAuth_bearer _ _ _ _ _ _ Hh),
            (optionalAuth_bearer _ _ _ _ _ _ Hh).
    destruct (verifyToken (decode t) now db) as [[r | err] db'];
      cbn [fst snd ret].
    + split.
      * intros (a & [= Ha] & Hs). now apply Hknown in Ha.
      * intros (a' & [=]).
    + split; [eauto |]. intros _.
      destruct (Hanon req Hfresh) as (a & -> & Hs). eauto.
  - rewrite requireAuth_no_bearer, optionalAuth_no_bearer by assumption.
    cbn [fst snd ret]. split; [eauto |]. intros _.
    destruct (Hanon req Hfresh) as (a & -> & Hs). eauto.
Qed.

End Pipelines.

Lemma auth_then_role_uses_stored_role_witness :
  exists a,
    fst (auth_then_role Sample.secret SampleHttp.decode
           (Many [JStr "administrador"; JStr "presidente"])
           (SampleHttp.request_with (Some "Bearer stale") [])
           (Sample.t0 + 1000) (Sample.db true []))
    = Return (Answer a)
    /\ status_code a = 403.
Proof.
  apply (proj2 (auth_then_role_uses_stored_role
                  Sample.secret SampleHttp.decode
                  (Many [JStr "administrador"; JStr "presidente"])
                  (SampleHttp.request_with (Some "Bearer stale") [])
                  (Sample.t0 + 1000) (Sample.db true [])
                  "stale" SampleHttp.stale_payload 1700086400 Sample.ana
                  eq_refl eq_refl eq_refl eq_refl eq_refl eq_refl eq_refl)).
  cbn. intuition discriminate.
Defined.

Lemma optional_then_role_refuses_anonymous_witness :
  exists a,
    fst (optional_then_role Sample.secret SampleHttp.decode
           (One (JStr "arbitro"))
           (SampleHttp.request_with (Some "Bearer forged") [])
           Sample.t0 (Sample.db true []))
    = Return (Answer a)
    /\ status_code a = 401.
Proof.
  apply (proj2 (optional_then_role_refuses_anonymous
                  Sample.secret SampleHttp.decode (One (JStr "arbitro"))
                  (SampleHttp.request_with (Some "Bearer forged") [])
                  Sample.t0 (Sample.db true []) eq_refl)).
  eexists. reflexivity.
Defined.

(* ------------------------------------------------------------------ *)
(** ** Controllers and routes *)

Section Controllers.

Variable JWT_SECRET : string.
Variable JWT_EXPIRES_IN : string.
Variable lifetime : Z.
Variable bcrypt_compare : string -> string -> bool.
Variable decode : string -> Jwt.token.
Variable validateLoginInput : object -> list string + string * string.

Local Abbreviation verifyToken := (verifyToken JWT_SECRET).
Local Abbreviation requireAuth := (requireAuth JWT_SECRET decode).
Local Abbreviation loginUser :=
  (loginUser JWT_SECRET JWT_EXPIRES_IN lifetime bcrypt_compare).
Local Abbreviation login :=
  (AuthController.login JWT_SECRET JWT_EXPIRES_IN lifetime bcrypt_compare
     validateLoginInput).

(** X6.  POST /auth/check-permissions reports, it does not enforce.  For a
    well signed, unexpired token with no not-before claim pending, whose
    subject resolves to the active row [u]: a falsy or missing
    [requiredRole] is answered 400, and anything else 200, with
    [hasPermission] computed by [validatePermissions] on the role [u] has in
    the store, also when that is [false]. *)
Theorem check_permissions_reports_on_stored_role
    (req : request) (now : Z) (db : Db)
    (t : string) (payload : object) (e : Z) (u : user_row)
    (Hh : http_authorization req = Some ("Bearer " ++ t))
    (Htok : decode t = Jwt.Signed JWT_SECRET payload)
    (Hnbf : not_before_passed payload now = true)
    (Hexp : get payload "exp" = JNum e) (Hlt : now / 1000 < e)
    (Hq : query_ok 0 db)
    (Hfind : find (by_id_active (get payload "userId")) (users db) = Some u) :
  fst (AuthRoutes.check_permissions JWT_SECRET decode req now db)
  = Return
      (if truthy (get (http_body req) "requiredRole")
       then
         mk_answer 200
           [ ("success", Val (JBool true));
             ("data", Obj
                [ ("hasPermission",
                   Val (JBool (validatePermissions (verify_principal u)
                                 (get (http_body req) "requiredRole"))));
                  ("userRole", Val (JStr (role u)));
                  ("requiredRole", Val (get (http_body req) "requiredRole")) ]) ]
       else
         mk_answer 400
           [ ("success", Val (JBool false));
             ("error", Val (JStr "Rol requerido no especificado")) ]).
Proof.
  unfold AuthRoutes.check_permissions, AuthRoutes.guarded, bind.
  rewrite (requireAuth_bearer _ _ _ _ _ _ Hh), Htok.
  rewrite (verifyToken_accepts _ _ _ _ _ _ Hnbf Hexp Hlt Hq Hfind).
  cbn [verify_user fst snd ret].
  unfold AuthController.checkPermissions, attach;
    cbn [http_user http_body].
  change (get (verify_principal u) "role") with (JStr (role u)).
  now destruct (truthy (get (http_body req) "requiredRole")).
Qed.

(** X7.  GET /auth/profile has two outcomes: the 401 answer of
    [requireAuth], or 200 with the projection of a stored row that is active
    now.  The 401 branch of [getProfile] itself is never taken on this
    route. *)
Theorem profile_route_outcomes (req : request) (now : Z) (db : Db) :
  (exists a,
      fst (requireAuth req now db) = Return (Answer a)
      /\ fst (AuthRoutes.profile JWT_SECRET decode req now db) = Return a)
  \/ (exists t u,
         http_authorization req = Some ("Bearer " ++ t)
         /\ In u (users db) /\ is_active u = true
         /\ fst (AuthRoutes.profile JWT_SECRET decode req now db)
            = Return
                (mk_answer 200
                   [ ("success", Val (JBool true));
                     ("message", Val (JStr "Perfil obtenido exitosamente"));
                     ("data", Obj [ ("user", of_object (verify_principal u)) ]) ])).
Proof.
  unfold AuthRoutes.profile, AuthRoutes.guarded, bind.
  destruct (bearer_or_not req) as [[t Hh] | Hno].
  - rewrite (requireAuth_bearer _ _ _ _ _ _ Hh).
    destruct (verifyToken (decode t) now db) as [[r | err] db'] eqn:Hv.
    + right. assert (Hr : fst (verifyToken (decode t) now db) = Return r)
        by now rewrite Hv.
      apply verifyToken_returns in Hr as (decoded & u & _ & _ & Hfind & ->).
      apply by_id_active_found in Hfind as (Hin & _ & _ & Hact).
      exists t, u. repeat split; auto.
    + left. eexists. split; reflexivity.
  - left. rewrite requireAuth_no_bearer by assumption.
    eexists. split; reflexivity.
Qed.

(** X8.  POST /auth/logout answers 200 to every request whose header is
    [Bearer], one space and anything at all: the credential is not decoded,
    not verified, not looked up.  Any other request gets 401.  Either way the
    database is left as it was, so that a token verifies after a logout as it
    did before. *)
Theorem logout_accepts_any_credential (req : request) (db : Db) :
  ((exists t, http_authorization req = Some ("Bearer " ++ t)) ->
   fst (AuthController.logout req db)
   = Return (mk_answer 200
               [ ("success", Val (JBool true));
                 ("message", Val (JStr "Sesión cerrada correctamente")) ]))
  /\ ((forall t, http_authorization req <> Some ("Bearer " ++ t)) ->
      fst (AuthController.logout req db)
      = Return (mk_answer 401
                  [ ("success", Val (JBool false));
                    ("error", Val (JStr "Token no proporcionado")) ]))
  /\ snd (AuthController.logout req db) = db
  /\ (forall token now,
         verifyToken token now (snd (AuthController.logout req db))
         = verifyToken token now db).
Proof.
  assert (Hdb : snd (AuthController.logout req db) = db).
  { unfold AuthController.logout, try_catch, bind, logoutUser, ret.
    destruct (http_authorization req) as [h |]; [| reflexivity].
    now destruct (negb (truthy (JStr h)) || negb (startsWith h "Bearer ")). }
  repeat split; [| | exact Hdb | intros; now rewrite Hdb].
  - intros [t Hh]. unfold AuthController.logout, try_catch, bind. rewrite Hh.
    replace (negb (truthy (JStr ("Bearer " ++ t)))
             || negb (startsWith ("Bearer " ++ t) "Bearer ")) with false
      by (symmetry; apply bearer_header; eauto).
    reflexivity.
  - intros Hno. unfold AuthController.logout, try_catch.
    destruct (http_authorization req) as [h |]; [| reflexivity].
    destruct (negb (truthy (JStr h)) || negb (startsWith h "Bearer ")) eqn:Hb;
      [reflexivity |].
    apply bearer_header in Hb as [t ->]. now elim (Hno t).
Qed.

(** X9.  POST /auth/login answers 400, 401 or 200 and nothing else.  Input
    the validation refuses never reaches the database.  Every failure of
    [loginUser] is a 401 carrying its message, a rejected query included: a
    database failure during login is reported as an authentication error. *)
Theorem login_controller_statuses (req : request) (now : Z) (db : Db) :
  exists a,
    fst (login req now db) = Return a
    /\ (status_code a = 400 \/ status_code a = 401 \/ status_code a = 200)
    /\ (forall details,
           validateLoginInput (http_body req) = inl details ->
           status_code a = 400 /\ snd (login req now db) = db)
    /\ (forall email' password,
           validateLoginInput (http_body req) = inr (email', password) ->
           (forall err,
               fst (loginUser email' password now db) = Throw err ->
               a = mk_answer 401
                     [ ("success", Val (JBool false));
                       ("error", Val (JStr "Error de autenticación"));
                       ("message", Val (JStr (message err))) ])
           /\ (nth 0 (faults db) false = true ->
               a = mk_answer 401
                     [ ("success", Val (JBool false));
                       ("error", Val (JStr "Error de autenticación"));
                       ("message", Val (JStr "Error al procesar el login")) ])
           /\ (forall r,
                  fst (loginUser email' password now db) = Return r ->
                  status_code a = 200)).
Proof.
  unfold AuthController.login, try_catch, bind.
  destruct (validateLoginInput (http_body req)) as [details | [e p]] eqn:Hval.
  - eexists. split; [reflexivity |]. cbn.
    split; [auto |]. split; [auto |]. intros ? ? [=].
  - pose proof (loginUser_cases JWT_SECRET JWT_EXPIRES_IN lifetime
                  bcrypt_compare e p now db) as Hcases.
    destruct (loginUser e p now db) as [[r | err] db'] eqn:Hl; cbn [fst] in *.
    + eexists. split; [reflexivity |]. cbn.
      split; [auto |]. split; [intros ? [=] |].
      intros ? ? [= <- <-]. rewrite Hl; cbn [fst].
      split; [intros ? [=] |]. split.
      * intros Hf. rewrite Hf in Hcases. discriminate.
      * reflexivity.
    + eexists. split; [reflexivity |]. cbn.
      split; [auto |]. split; [intros ? [=] |].
      intros ? ? [= <- <-]. rewrite Hl; cbn [fst].
      split; [now intros ? [= <-] |]. split.
      * intros Hf. rewrite Hf in Hcases. now injection Hcases as ->.
      * intros ? [=].
Qed.

Local Ltac refuse :=
  eexists; split; [reflexivity |]; cbn;
  split; [auto |]; split; [split; [discriminate | intros [? [=]]] |];
  split; [intros ? ? [=] | reflexivity].

(** X10.  GET /auth/verify answers 200 exactly when [requireAuth] lets the
    same request through, and then shows the Principal [requireAuth]
    attaches; the two query the database alike. *)
Theorem verify_controller_agrees_with_requireAuth
    (req : request) (now : Z) (db : Db) :
  exists a,
    fst (AuthController.verifyToken JWT_SECRET decode req now db) = Return a
    /\ (status_code a = 200 \/ status_code a = 401)
    /\ (status_code a = 200 <->
        exists req', fst (requireAuth req now db) = Return (Continue req'))
    /\ (forall req' p,
           fst (requireAuth req now db) = Return (Continue req') ->
           http_user req' = Some p ->
           a = mk_answer 200
                 [ ("success", Val (JBool true));
                   ("message", Val (JStr "Token válido"));
                   ("data", Obj [ ("user", of_object p);
                                  ("tokenValid", Val (JBool true)) ]) ])
    /\ snd (AuthController.verifyToken JWT_SECRET decode req now db)
       = snd (requireAuth req now db).
Proof.
  destruct (bearer_or_not req) as [[t Hh] | Hno].
  - rewrite (requireAuth_bearer _ _ _ _ _ _ Hh).
    unfold AuthController.verifyToken, try_catch, bind. rewrite Hh.
    replace (negb (truthy (JStr ("Bearer " ++ t)))
             || negb (startsWith ("Bearer " ++ t) "Bearer ")) with false
      by (symmetry; apply bearer_header; eauto).
    cbn [substring_from append].
    destruct (verifyToken (decode t) now db) as [[r | err] db'] eqn:Hv.
    + assert (Hr : fst (verifyToken (decode t) now db) = Return r)
        by now rewrite Hv.
      apply verifyToken_returns in Hr as (decoded & u & _ & _ & _ & ->).
      eexists. split; [reflexivity |]. cbn.
      split; [auto |]. split; [split; eauto |].
      split; [intros ? ? [= <-] [= <-]; reflexivity | reflexivity].
    + refuse.
  - rewrite requireAuth_no_bearer by assumption.
    unfold AuthController.verifyToken, try_catch.
    destruct (http_authorization req) as [h |]; [| refuse].
    destruct (negb (truthy (JStr h)) || negb (startsWith h "Bearer ")) eqn:Hb;
      [refuse |].
    apply bearer_header in Hb as [t ->]. now elim (Hno t).
Qed.

End Controllers.

Lemma check_permissions_reports_on_stored_role_witness :
  fst (AuthRoutes.check_permissions Sample.secret SampleHttp.decode
         (SampleHttp.request_with (Some "Bearer stale")
            [("requiredRole", JStr "administrador")])
         (Sample.t0 + 1000) (Sample.db true []))
  = Return
      (mk_answer 200
         [ ("success", Val (JBool true));
           ("data", Obj
              [ ("hasPermission", Val (JBool false));
                ("userRole", Val (JStr "arbitro"));
                ("requiredRole", Val (JStr "administrador")) ]) ]).
Proof.
  apply (check_permissions_reports_on_stored_role
           Sample.secret SampleHttp.decode
           (SampleHttp.request_with (Some "Bearer stale")
              [("requiredRole", JStr "administrador")])
           (Sample.t0 + 1000) (Sample.db true [])
           "stale" SampleHttp.stale_payload 1700086400 Sample.ana
           eq_refl eq_refl eq_refl eq_refl eq_refl eq_refl eq_refl).
Defined.

(* ------------------------------------------------------------------ *)
(** ** Tokens over time *)

Lemma db_eta (db : Db) : mk_db (users db) (faults db) = db.
Proof. now destruct db. Qed.

Lemma find_map_invariant {A} (p : A -> bool) (f : A -> A) (l : list A) :
  (forall a, p (f a) = p a) ->
  find p (map f l) = option_map f (find p l).
Proof.
  intros Hp. induction l as [| a l IH]; [reflexivity |].
  simpl. rewrite Hp. now destruct (p a).
Qed.

Section TokensOverTime.

Variable JWT_SECRET : string.
Variable JWT_EXPIRES_IN : string.
Variable lifetime : Z.
Variable bcrypt_compare : string -> string -> bool.

Local Abbreviation generateJWT := (generateJWT JWT_SECRET lifetime).
Local Abbreviation loginUser :=
  (loginUser JWT_SECRET JWT_EXPIRES_IN lifetime bcrypt_compare).
Local Abbreviation verifyToken := (verifyToken JWT_SECRET).
Local Abbreviation refreshToken :=
  (refreshToken JWT_SECRET JWT_EXPIRES_IN lifetime).

(** X11.  [verifyToken] and [refreshToken] never write to the users table.
    A token [jwt.verify] refuses costs no query at all: the database is left
    exactly as it was; any other token costs one query. *)
Theorem token_checks_never_write (token : Jwt.token) (now : Z) (db : Db) :
  users (snd (verifyToken token now db)) = users db
  /\ users (snd (refreshToken token now db)) = users db
  /\ (forall e, Jwt.verify token JWT_SECRET false now = Throw e ->
                snd (verifyToken token now db) = db)
  /\ (forall e, Jwt.verify token JWT_SECRET true now = Throw e ->
                snd (refreshToken token now db) = db)
  /\ (forall d, Jwt.verify token JWT_SECRET false now = Return d ->
                faults (snd (verifyToken token now db)) = tl (faults db))
  /\ (forall d, Jwt.verify token JWT_SECRET true now = Return d ->
                faults (snd (refreshToken token now db)) = tl (faults db)).
Proof.
  rewrite verifyToken_state, refreshToken_state.
  destruct (Jwt.verify token JWT_SECRET false now),
           (Jwt.verify token JWT_SECRET true now);
    repeat split; intros; cbn; congruence.
Qed.

(** Touching [updated_at] changes nothing a lookup by id or its projection
    can see. *)
Lemma find_by_id_after_login (i j : value) (now : Z) (rows : list user_row) :
  option_map verify_principal
    (find (by_id_active i)
       (map (fun v => if sql_eq (id v) j then touch now v else v) rows))
  = option_map verify_principal (find (by_id_active i) rows).
Proof.
  rewrite find_map_invariant.
  - destruct (find (by_id_active i) rows) as [u |]; [| reflexivity].
    simpl. now destruct (sql_eq (id u) j).
  - intros v. now destruct (sql_eq (id v) j).
Qed.

Lemma verifyToken_depends_on_lookup (token : Jwt.token) (now : Z)
    (db db' : Db) :
  faults db = [] -> faults db' = [] ->
  (forall i, option_map verify_principal (find (by_id_active i) (users db'))
             = option_map verify_principal (find (by_id_active i) (users db))) ->
  fst (verifyToken token now db') = fst (verifyToken token now db).
Proof.
  intros Hf Hf' Hsame. rewrite !verifyToken_cases, Hf, Hf'.
  destruct (Jwt.verify token JWT_SECRET false now) as [d | e]; [| reflexivity].
  cbn. specialize (Hsame (get d "userId")).
  destruct (find _ (users db')), (find _ (users db)); cbn in Hsame;
    congruence.
Qed.

Lemma loginUser_pool (email' password : string) (now : Z) (db : Db) :
  faults db = [] -> faults (snd (loginUser email' password now db)) = [].
Proof.
  intros Hpool.
  unfold AuthService.loginUser, try_catch, bind, findUserByEmail, query.
  generalize (trim (toLowerCase email')) as e; intros e.
  rewrite Hpool; simpl.
  destruct (find (by_email_active e) (users db)) as [u |] eqn:Hfind;
    simpl; try reflexivity.
  apply by_email_active_found in Hfind as (_ & _ & Hact).
  unfold bcrypt_compare_values, ret, throw; cbn.
  destruct (bcrypt_compare password (password_hash u)); cbn;
    try reflexivity.
  rewrite Hact; cbn.
  unfold updateLastLogin, query; cbn. reflexivity.
Qed.

(** X12.  No request revokes or alters a token.  With a healthy pool, what a
    token verifies to is the same after a verification, after a refresh and
    after a login (of anyone, with any outcome) as it was before, the clock
    being equal. *)
Theorem verification_unaffected_by_other_requests
    (token : Jwt.token) (now : Z) (db : Db) (Hpool : faults db = []) :
  (forall other then_,
      fst (verifyToken token now (snd (verifyToken other then_ db)))
      = fst (verifyToken token now db))
  /\ (forall other then_,
         fst (verifyToken token now (snd (refreshToken other then_ db)))
         = fst (verifyToken token now db))
  /\ (forall email' password then_,
         fst (verifyToken token now (snd (loginUser email' password then_ db)))
         = fst (verifyToken token now db)).
Proof.
  assert (Hstay : mk_db (users db) (tl (faults db)) = db)
    by (rewrite Hpool; cbn; rewrite <- Hpool; apply db_eta).
  repeat split; intros.
  - rewrite verifyToken_state.
    destruct (Jwt.verify other JWT_SECRET false then_); now rewrite ?Hstay.
  - rewrite refreshToken_state.
    destruct (Jwt.verify other JWT_SECRET true then_); now rewrite ?Hstay.
  - apply verifyToken_depends_on_lookup; [assumption | |].
    + now apply loginUser_pool.
    + intros i. rewrite loginUser_table.
      destruct (fst (loginUser email' password then_ db)); [| reflexivity].
      destruct (find _ (users db)); [| reflexivity].
      apply find_by_id_after_login.
Qed.

(** X13.  The life of a token is exactly [lifetime] seconds.  Whatever the
    database holds, a token issued by [generateJWT] is refused as expired iff
    the clock, in whole seconds, has reached the second of issue plus the
    lifetime. *)
Theorem verifyToken_expiry_boundary
    (user : object) (issued now : Z) (db : Db) :
  fst (verifyToken (generateJWT user issued) now db) = Throw TokenExpired
  <-> issued / 1000 + lifetime <= now / 1000.
Proof.
  destruct (generateJWT_not_before JWT_SECRET lifetime user issued now)
    as (payload & -> & Hexp & Hnbf).
  rewrite verifyToken_cases.
  destruct (issued / 1000 + lifetime <=? now / 1000) eqn:Hle.
  - apply Z.leb_le in Hle.
    rewrite (Jwt_verify_from_expiry _ _ _ _ Hnbf Hexp Hle). cbn. tauto.
  - apply Z.leb_gt in Hle.
    rewrite (Jwt_verify_before_expiry _ _ _ _ Hnbf Hexp Hle).
    split; [| lia].
    destruct (nth 0 (faults db) false); [discriminate |].
    destruct (find _ (users db)); discriminate.
Qed.

(** X14.  The signature is checked first.  A token signed under another key,
    expired or not, and a string that is no token are refused as malformed by
    [verifyToken] before any query is made. *)
Theorem verifyToken_checks_signature_first
    (key : string) (payload : object) (raw : string) (now : Z) (db : Db)
    (Hkey : key <> JWT_SECRET) :
  verifyToken (Jwt.Signed key payload) now db = (Throw TokenMalformed, db)
  /\ verifyToken (Jwt.Malformed raw) now db = (Throw TokenMalformed, db).
Proof.
  apply String.eqb_neq in Hkey.
  split; apply injective_projections;
    rewrite ?verifyToken_cases, ?verifyToken_state; unfold Jwt.verify;
    rewrite ?Hkey; reflexivity.
Qed.

End TokensOverTime.

Lemma verification_unaffected_by_other_requests_witness :
  fst (Sample.verify (Sample.issue (row_by_email Sample.ana) Sample.t0)
         (Sample.t0 + 9000)
         (snd (Sample.login "luis@sgad.com" "hunter22" (Sample.t0 + 5000)
                 (Sample.db true []))))
  = fst (Sample.verify (Sample.issue (row_by_email Sample.ana) Sample.t0)
           (Sample.t0 + 9000) (Sample.db true [])).
Proof.
  apply (proj2 (proj2 (verification_unaffected_by_other_requests
                         Sample.secret "24h" 86400 Sample.bcrypt
                         (Sample.issue (row_by_email Sample.ana) Sample.t0)
                         (Sample.t0 + 9000) (Sample.db true []) eq_refl))).
Defined.

Lemma verifyToken_checks_signature_first_witness :
  Sample.verify (Jwt.Signed "forged" SampleHttp.stale_payload)
    (Sample.t0 + 172800000) (Sample.db true [])
  = (Throw TokenMalformed, Sample.db true []).
Proof.
  apply (proj1 (verifyToken_checks_signature_first
                  Sample.secret "forged" SampleHttp.stale_payload "x"
                  (Sample.t0 + 172800000) (Sample.db true [])
                  ltac:(discriminate))).
Defined.

(* ------------------------------------------------------------------ *)
(** ** Login, continued *)

Lemma lower_ascii_idem (c : ascii) : lower_ascii (lower_ascii c) = lower_ascii c.
Proof. destruct c as [[] [] [] [] [] [] [] []]; reflexivity. Qed.

Lemma is_space_lower (c : ascii) : is_space (lower_ascii c) = is_space c.
Proof. destruct c as [[] [] [] [] [] [] [] []]; reflexivity. Qed.

Lemma toLowerCase_idem (s : string) : toLowerCase (toLowerCase s) = toLowerCase s.
Proof.
  induction s as [| c s IH]; [reflexivity |].
  simpl. now rewrite lower_ascii_idem, IH.
Qed.

Lemma toLowerCase_trim_start (s : string) :
  toLowerCase (trim_start s) = trim_start (toLowerCase s).
Proof.
  induction s as [| c s IH]; [reflexivity |].
  simpl. rewrite is_space_lower. now destruct (is_space c).
Qed.

Lemma toLowerCase_trim_end (s : string) :
  toLowerCase (trim_end s) = trim_end (toLowerCase s).
Proof.
  induction s as [| c s IH]; [reflexivity |].
  simpl. rewrite <- IH, is_space_lower.
  destruct (trim_end s) as [| d r]; simpl; [now destruct (is_space c) |].
  reflexivity.
Qed.

Lemma trim_end_idem (s : string) : trim_end (trim_end s) = trim_end s.
Proof.
  induction s as [| c s IH]; [reflexivity |].
  simpl. destruct (trim_end s) as [| d r] eqn:Hs.
  - destruct (is_space c) eqn:Hc; [reflexivity |]. simpl. now rewrite Hc.
  - change (trim_end (String c (String d r))) with
      (match trim_end (String d r) with
       | EmptyString =>
           if is_space c then EmptyString else String c EmptyString
       | r' => String c r'
       end).
    now rewrite IH.
Qed.

(** A string with no blank in front keeps its front through [trim_end]. *)
Lemma trim_start_trim_end (s : string) :
  trim_start s = s -> trim_start (trim_end s) = trim_end s.
Proof.
  destruct s as [| c s]; [reflexivity |]. simpl.
  destruct (is_space c) eqn:Hc.
  - intros H. exfalso.
    assert (Hlen : forall t,
              (String.length (trim_start t) <= String.length t)%nat).
    { induction t as [| d t IHt]; simpl; [lia |].
      destruct (is_space d); simpl; lia. }
    specialize (Hlen s). rewrite H in Hlen. simpl in Hlen. lia.
  - intros _. destruct (trim_end s); simpl; now rewrite Hc.
Qed.

Lemma trim_start_idem (s : string) : trim_start (trim_start s) = trim_start s.
Proof.
  induction s as [| c s IH]; [reflexivity |].
  simpl. destruct (is_space c) eqn:Hc; [exact IH |]. simpl. now rewrite Hc.
Qed.

Lemma trim_idem (s : string) : trim (trim s) = trim s.
Proof.
  unfold trim.
  rewrite (trim_start_trim_end (trim_start s)) by apply trim_start_idem.
  apply trim_end_idem.
Qed.

(** The lookup form of an email is a fixed point of both normalizations. *)
Lemma normalize_email_idem (e : string) :
  toLowerCase (normalize_email e) = normalize_email e
  /\ trim (normalize_email e) = normalize_email e.
Proof.
  unfold normalize_email, trim. split.
  - now rewrite toLowerCase_trim_end, toLowerCase_trim_start, toLowerCase_idem.
  - apply trim_idem.
Qed.

(** Lower-casing and trimming keep a string of ASCII characters one. *)
Lemma lower_ascii_code (c : ascii) :
  (nat_of_ascii c < 128)%nat -> (nat_of_ascii (lower_ascii c) < 128)%nat.
Proof.
  unfold lower_ascii.
  destruct (Nat.leb 65 (nat_of_ascii c) && Nat.leb (nat_of_ascii c) 90)
    eqn:Hup; [| auto].
  apply andb_true_iff in Hup as [_ Hhi]. apply Nat.leb_le in Hhi.
  intros _. rewrite nat_ascii_embedding; lia.
Qed.

Lemma toLowerCase_ascii (s : string) :
  ascii_only s -> ascii_only (toLowerCase s).
Proof.
  unfold ascii_only. induction s as [| c s IH]; [auto |].
  simpl. intros H. inversion H; subst.
  constructor; [now apply lower_ascii_code | auto].
Qed.

Lemma trim_start_ascii (s : string) :
  ascii_only s -> ascii_only (trim_start s).
Proof.
  unfold ascii_only. induction s as [| c s IH]; [auto |].
  simpl. intros H. destruct (is_space c); [| exact H].
  inversion H; auto.
Qed.

Lemma trim_end_ascii (s : string) :
  ascii_only s -> ascii_only (trim_end s).
Proof.
  unfold ascii_only. induction s as [| c s IH]; [auto |].
  simpl. intros H. inversion H as [| ? ? Hc Hs]; subst.
  specialize (IH Hs).
  destruct (trim_end s) as [| d r].
  - destruct (is_space c); simpl;
      [constructor | constructor; [assumption | constructor]].
  - simpl. constructor; assumption.
Qed.

Lemma normalize_email_ascii (e : string) :
  ascii_only e -> ascii_only (normalize_email e).
Proof.
  intros H. unfold normalize_email, trim.
  now apply trim_end_ascii, trim_start_ascii, toLowerCase_ascii.
Qed.

Lemma find_unique (p : user_row -> bool) (rows : list user_row) (u : user_row) :
  NoDup (map id rows) -> In u rows -> p u = true ->
  (forall v, In v rows -> p v = true -> id v = id u) ->
  find p rows = Some u.
Proof.
  induction rows as [| w rows IH]; intros Hnd Hin Hp Hid; [contradiction |].
  simpl. inversion Hnd as [| ? ? Hnotin Hnd']; subst.
  destruct (p w) eqn:Hw.
  - destruct Hin as [-> | Hin]; [reflexivity |].
    exfalso. apply Hnotin. rewrite (Hid w (or_introl eq_refl) Hw).
    now apply in_map.
  - destruct Hin as [-> | Hin]; [congruence |].
    apply IH; auto. intros v Hv. apply Hid. now right.
Qed.

Section LoginMore.

Variable JWT_SECRET : string.
Variable JWT_EXPIRES_IN : string.
Variable lifetime : Z.
Variable bcrypt_compare : string -> string -> bool.

Local Abbreviation generateJWT := (generateJWT JWT_SECRET lifetime).
Local Abbreviation loginUser :=
  (loginUser JWT_SECRET JWT_EXPIRES_IN lifetime bcrypt_compare).
Local Abbreviation verifyToken := (verifyToken JWT_SECRET).

(** What a login that returns has gone through. *)
Lemma loginUser_returns (email' password : string) (now : Z) (db : Db)
    (r : login_result) :
  fst (loginUser email' password now db) = Return r ->
  exists u,
    find (by_email_active (normalize_email email')) (users db) = Some u
    /\ bcrypt_compare password (password_hash u) = true
    /\ r = mk_login_result true (login_principal u)
             (generateJWT (row_by_email u) now) JWT_EXPIRES_IN.
Proof.
  rewrite loginUser_cases. unfold normalize_email.
  destruct (nth 0 (faults db) false); [discriminate |].
  destruct (find _ (users db)) as [u |]; [| discriminate].
  destruct (bcrypt_compare password (password_hash u)) eqn:Hpw;
    [| discriminate].
  destruct (nth 1 (faults db) false); [discriminate |].
  cbn. intros [= <-]. exists u. auto.
Qed.

(** X15.  The token of a successful login says what the returned Principal
    says: same email and role, and the same id whenever the id is a datum;
    it is issued now by [sgad-auth-service] for [sgad-system] and expires one
    lifetime later.  Neither carries a referee id: the query behind the login
    does not select that column, so [refereeId] is [undefined] in the
    Principal and absent from the token. *)
Theorem loginUser_token_matches_principal
    (email' password : string) (now : Z) (db : Db) (r : login_result)
    (Hlogin : fst (loginUser email' password now db) = Return r) :
  claim (login_token r) "email" = get (login_user r) "email"
  /\ claim (login_token r) "role" = get (login_user r) "role"
  /\ (is_data (get (login_user r) "id") = true ->
      claim (login_token r) "userId" = get (login_user r) "id")
  /\ claim (login_token r) "iss" = JStr "sgad-auth-service"
  /\ claim (login_token r) "aud" = JStr "sgad-system"
  /\ claim (login_token r) "iat" = JNum (now / 1000)
  /\ claim (login_token r) "exp" = JNum (now / 1000 + lifetime)
  /\ get (login_user r) "refereeId" = JUndefined
  /\ ~ In "refereeId" (claims (login_token r)).
Proof.
  apply loginUser_returns in Hlogin as (u & _ & _ & ->).
  cbn [login_token login_user]. rewrite generateJWT_row_by_email.
  cbn [claim claims]. cbn.
  destruct (id u); cbn; repeat split; try discriminate;
    intuition discriminate.
Qed.

(** X16.  Only a row whose stored email is already in lookup form can log
    in: the input is lower-cased and trimmed, the stored value is compared as
    it is.  Whoever logs in with an email of ASCII characters, the row
    behind the Principal has a stored email equal to the normalized input,
    of ASCII characters, with no upper-case letter and no blank at either
    end. *)
Theorem loginUser_only_normalized_stored_emails
    (email' password : string) (now : Z) (db : Db) (r : login_result)
    (Hascii : ascii_only email')
    (Hlogin : fst (loginUser email' password now db) = Return r) :
  exists u,
    In u (users db)
    /\ login_user r = login_principal u
    /\ email u = normalize_email email'
    /\ ascii_only (email u)
    /\ toLowerCase (email u) = email u
    /\ trim (email u) = email u.
Proof.
  apply loginUser_returns in Hlogin as (u & Hfind & _ & ->).
  apply by_email_active_found in Hfind as (Hin & Hmail & _).
  exists u. rewrite Hmail.
  destruct (normalize_email_idem email') as [Hl Ht].
  pose proof (normalize_email_ascii email' Hascii) as Ha.
  repeat split; assumption || reflexivity.
Qed.

(** X17.  Login, then verify.  When ids are a primary key of the table, the
    pool is healthy and the lifetime is positive, the token a login returns
    verifies at once, on the database the login leaves, to a Principal with
    the id, email and role of the Principal the login returned. *)
Theorem loginUser_then_verifyToken
    (email' password : string) (now : Z) (db : Db) (r : login_result)
    (Hkey : primary_key db) (Hpool : faults db = []) (Hlife : 0 < lifetime)
    (Hlogin : fst (loginUser email' password now db) = Return r) :
  exists v,
    fst (verifyToken (login_token r) now
           (snd (loginUser email' password now db)))
    = Return v
    /\ get (verify_user v) "id" = get (login_user r) "id"
    /\ get (verify_user v) "email" = get (login_user r) "email"
    /\ get (verify_user v) "role" = get (login_user r) "role".
Proof.
  pose proof (loginUser_pool JWT_SECRET JWT_EXPIRES_IN lifetime bcrypt_compare
                email' password now db Hpool) as Hpool'.
  pose proof (loginUser_table JWT_SECRET JWT_EXPIRES_IN lifetime bcrypt_compare
                email' password now db) as Htable.
  rewrite Hlogin in Htable.
  apply loginUser_returns in Hlogin as (u & Hfind & _ & ->).
  unfold normalize_email in Hfind. rewrite Hfind in Htable.
  apply by_email_active_found in Hfind as (Hin & _ & Hact).
  destruct Hkey as [Hnd Hnn]. pose proof (Hnn u Hin) as Hself.
  assert (Hbyid : find (by_id_active (id u)) (users db) = Some u).
  { apply find_unique; auto.
    - unfold by_id_active. now rewrite Hself, Hact.
    - intros w _ Hw. unfold by_id_active in Hw.
      apply andb_true_iff in Hw as [Hw _]. unfold sql_eq in Hw.
      destruct (id u); try discriminate; now apply strict_eq_true in Hw. }
  assert (Hdata : is_data (id u) = true)
    by (unfold sql_eq in Hself; now destruct (id u)).
  cbn [login_token login_user].
  destruct (generateJWT_claims JWT_SECRET lifetime (row_by_email u) now)
    as (payload & -> & _ & Hexp & _ & Hid & _ & Hnbf).
  specialize (Hid Hdata). cbn in Hid.
  exists (mk_verify_result true (verify_principal u) true).
  rewrite verifyToken_cases.
  assert (Hpassed : not_before_passed payload now = true)
    by (unfold not_before_passed; now rewrite Hnbf).
  rewrite (Jwt_verify_before_expiry _ _ _ _ Hpassed Hexp) by lia.
  rewrite Hpool', Hid, Htable. cbn [nth].
  pose proof (find_by_id_after_login (id u) (id u) now (users db)) as Hsame.
  rewrite Hbyid in Hsame. cbn [option_map] in Hsame.
  destruct (find _ (map _ (users db))) as [w |]; [| discriminate].
  apply (f_equal (fun o => match o with Some p => p | None => [] end))
    in Hsame.
  cbn [option_map] in Hsame. cbn [verify_user]. rewrite Hsame. repeat split.
Qed.

End LoginMore.

Lemma loginUser_token_matches_principal_witness :
  exists r,
    fst (Sample.login " Ana@SGAD.com" "correct" Sample.t0 (Sample.db true []))
    = Return r
    /\ claim (login_token r) "role" = JStr "arbitro"
    /\ ~ In "refereeId" (claims (login_token r)).
Proof.
  eexists. split; [reflexivity |].
  pose proof (loginUser_token_matches_principal
                Sample.secret "24h" 86400 Sample.bcrypt
                " Ana@SGAD.com" "correct" Sample.t0 (Sample.db true []) _
                eq_refl) as H.
  split; [apply H | apply H].
Defined.

Lemma loginUser_only_normalized_stored_emails_witness :
  exists u,
    In u (users (Sample.db true []))
    /\ email u = "ana@sgad.com"
    /\ toLowerCase (email u) = email u.
Proof.
  assert (Hascii : ascii_only " Ana@SGAD.com")
    by (repeat constructor).
  destruct (loginUser_only_normalized_stored_emails
              Sample.secret "24h" 86400 Sample.bcrypt
              " Ana@SGAD.com" "correct" Sample.t0 (Sample.db true []) _
              Hascii eq_refl) as (u & Hin & _ & Hmail & _ & Hlow & _).
  exists u. auto.
Defined.

Lemma loginUser_then_verifyToken_witness :
  exists v,
    fst (Sample.verify
           (Sample.issue (row_by_email Sample.ana) Sample.t0) Sample.t0
           (snd (Sample.login "ana@sgad.com" "correct" Sample.t0
                   (Sample.db true []))))
    = Return v
    /\ get (verify_user v) "role" = JStr "arbitro".
Proof.
  assert (Hkey : primary_key (Sample.db true [])).
  { split.
    - repeat constructor; cbn; intuition discriminate.
    - intros u [<- | [<- | []]]; reflexivity. }
  destruct (loginUser_then_verifyToken
              Sample.secret "24h" 86400 Sample.bcrypt
              "ana@sgad.com" "correct" Sample.t0 (Sample.db true []) _
              Hkey eq_refl eq_refl eq_refl) as (v & Hv & _ & _ & Hrole).
  exists v. split; [exact Hv | exact Hrole].
Defined.

(* ------------------------------------------------------------------ *)
(** ** Permission evaluator, continued *)

Lemma ltb_irrefl (s : string) : String.ltb s s = false.
Proof.
  unfold String.ltb. pose proof (String.compare_antisym s s) as H.
  destruct (String.compare s s); simpl in H; congruence.
Qed.

(** What the table lookup with its [|| 0] can yield. *)
Lemma roleHierarchy_lookup (k : string) :
  (exists n, or_else (get roleHierarchy k) (JNum 0) = JNum n /\ 0 <= n <= 3
             /\ Object_prototype k = None)
  \/ (exists o, or_else (get roleHierarchy k) (JNum 0) = JObject o
                /\ Object_prototype k <> None).
Proof.
  destruct (Object_prototype k) as [v |] eqn:Hproto.
  - right. unfold get, roleHierarchy, own.
    destruct (String.eqb_spec "presidente" k) as [<- | Hp]; [discriminate |].
    destruct (String.eqb_spec "administrador" k) as [<- | Ha]; [discriminate |].
    destruct (String.eqb_spec "arbitro" k) as [<- | Hr]; [discriminate |].
    rewrite Hproto. revert Hproto. unfold Object_prototype, native.
    repeat match goal with
           | |- context [if ?c then _ else _] => destruct c
           end; intros [= <-]; eexists; split; (reflexivity || discriminate).
  - left. exists (level k). rewrite roleHierarchy_level by assumption.
    repeat split; unfold level;
      repeat match goal with
             | |- context [if ?c then _ else _] => destruct c
             end; lia.
Qed.

(** X18.  Every user satisfies a requirement for the very role they hold,
    whatever that role is: a known one, an unknown one, the name of an
    inherited member, or no string at all. *)
Theorem validatePermissions_reflexive (user : object) :
  validatePermissions user (get user "role") = true.
Proof.
  unfold validatePermissions.
  destruct (roleHierarchy_lookup (to_string (get user "role")))
    as [(n & -> & _) | (o & -> & _)]; simpl.
  - apply Z.leb_refl.
  - now rewrite ltb_irrefl.
Qed.

(** X19.  The extremes of the evaluator.  President satisfies every required
    role that is not the name of an inherited member.  A required role that
    is unmapped (and no such name) is satisfied by every holder whose own
    role is no such name, unknown roles included.  A required role that is
    such a name ([constructor], [toString], ...) is satisfied by none of
    them, president included. *)
Theorem validatePermissions_extremes
    (user : object) (held required : string)
    (Hrole : get user "role" = JStr held)
    (Hheld : Object_prototype held = None) :
  (held = "presidente" -> Object_prototype required = None ->
   validatePermissions user (JStr required) = true)
  /\ (Object_prototype required = None ->
      required <> "arbitro" -> required <> "administrador" ->
      required <> "presidente" ->
      validatePermissions user (JStr required) = true)
  /\ (Object_prototype required <> None ->
      validatePermissions user (JStr required) = false).
Proof.
  unfold validatePermissions. rewrite Hrole. simpl to_string.
  rewrite (roleHierarchy_level held Hheld).
  repeat split.
  - intros -> Hreq. rewrite (roleHierarchy_level required Hreq). simpl.
    apply Z.leb_le. change (level "presidente") with 3. unfold level.
    repeat match goal with
           | |- context [if ?c then _ else _] => destruct c
           end; lia.
  - intros Hreq H1 H2 H3. rewrite (roleHierarchy_level required Hreq). simpl.
    apply Z.leb_le. unfold level at 1.
    destruct (String.eqb_spec required "arbitro"); [contradiction |].
    destruct (String.eqb_spec required "administrador"); [contradiction |].
    destruct (String.eqb_spec required "presidente"); [contradiction |].
    unfold level.
    repeat match goal with
           | |- context [if ?c then _ else _] => destruct c
           end; lia.
  - intros Hreq.
    destruct (roleHierarchy_lookup required)
      as [(n & _ & _ & Hnone) | (o & -> & _)]; [contradiction | reflexivity].
Qed.

Lemma validatePermissions_extremes_witness :
  validatePermissions [("id", JStr "1"); ("role", JStr "presidente")]
                      (JStr "toString") = false
  /\ validatePermissions [("id", JStr "2"); ("role", JStr "invitado")]
                         (JStr "superusuario") = true.
Proof.
  split.
  - apply (proj2 (proj2 (validatePermissions_extremes
                           [("id", JStr "1"); ("role", JStr "presidente")]
                           "presidente" "toString" eq_refl eq_refl))).
    discriminate.
  - apply (proj1 (proj2 (validatePermissions_extremes
                           [("id", JStr "2"); ("role", JStr "invitado")]
                           "invitado" "superusuario" eq_refl eq_refl)));
      [reflexivity | discriminate | discriminate | discriminate].
Defined.

Lemma validateRoles_one (r : value) :
  Validation.validateRoles (One r) = true ->
  r = JStr "arbitro" \/ r = JStr "administrador" \/ r = JStr "presidente".
Proof.
  unfold Validation.validateRoles. cbn [normalize forallb].
  rewrite andb_true_r. intros H. apply includes_In in H.
  cbn in H. intuition.
Qed.

(** X20.  On the roles [validateRoles] accepts, [validatePermissions] is a
    total order: reflexive, antisymmetric, transitive and total, with
    arbitro below administrador below presidente. *)
Theorem validatePermissions_total_order_on_valid_roles
    (a b c : string)
    (Ha : Validation.validateRoles (One (JStr a)) = true)
    (Hb : Validation.validateRoles (One (JStr b)) = true)
    (Hc : Validation.validateRoles (One (JStr c)) = true) :
  let holds x y := validatePermissions [("role", JStr x)] (JStr y) in
  holds a a = true
  /\ (holds a b = true -> holds b a = true -> a = b)
  /\ (holds a b = true -> holds b c = true -> holds a c = true)
  /\ (holds a b = true \/ holds b a = true)
  /\ holds "administrador" "arbitro" = true
  /\ holds "presidente" "administrador" = true
  /\ holds "arbitro" "administrador" = false
  /\ holds "administrador" "presidente" = false.
Proof.
  apply validateRoles_one in Ha, Hb, Hc.
  destruct Ha as [Ha | [Ha | Ha]], Hb as [Hb | [Hb | Hb]],
           Hc as [Hc | [Hc | Hc]];
    injection Ha as ->; injection Hb as ->; injection Hc as ->;
    cbn; repeat split; auto; discriminate.
Qed.

Lemma validatePermissions_total_order_on_valid_roles_witness :
  validatePermissions [("role", JStr "presidente")] (JStr "arbitro") = true.
Proof.
  apply (proj1 (proj2 (proj2
           (validatePermissions_total_order_on_valid_roles
              "presidente" "administrador" "arbitro"
              eq_refl eq_refl eq_refl))));
    reflexivity.
Defined.

(* ------------------------------------------------------------------ *)
(** ** Patterns *)

Section RegexFacts.

Import Regex.

Lemma append_empty (u v : string) : u ++ v = "" -> u = "" /\ v = "".
Proof. destruct u; [auto | discriminate]. Qed.

Lemma append_assoc (u v w : string) : (u ++ v) ++ w = u ++ (v ++ w).
Proof. induction u as [| c u IH]; simpl; [reflexivity | now rewrite IH]. Qed.

Lemma append_empty_r (u : string) : u ++ "" = u.
Proof. induction u as [| c u IH]; simpl; [reflexivity | now rewrite IH]. Qed.

Lemma nullable_lang (r : re) : nullable r = true <-> lang r "".
Proof.
  split.
  - induction r; simpl; intros H; try discriminate.
    + constructor.
    + apply andb_true_iff in H as [H1 H2].
      change "" with ("" ++ ""). constructor; auto.
    + apply orb_true_iff in H as [H | H];
        [apply lang_alt_l | apply lang_alt_r]; auto.
    + constructor.
  - intros H. remember "" as s eqn:E. induction H; simpl; try reflexivity.
    + discriminate.
    + apply append_empty in E as [-> ->].
      now rewrite IHlang1, IHlang2.
    + now rewrite IHlang.
    + rewrite IHlang by assumption. apply orb_true_r.
Qed.

Lemma deriv_sound (c : ascii) (r : re) (s : string) :
  lang (deriv c r) s -> lang r (String c s).
Proof.
  revert s. induction r as [| | p | r1 IH1 r2 IH2 | r1 IH1 r2 IH2 | r IH];
    simpl; intros s H.
  - inversion H.
  - inversion H.
  - destruct (p c) eqn:Hp; inversion H; subst. now constructor.
  - assert (Hcat : forall w, lang (Cat (deriv c r1) r2) w ->
                             lang (Cat r1 r2) (String c w)).
    { intros w Hw. inversion Hw; subst.
      change (String c (u ++ v)) with (String c u ++ v). constructor; auto. }
    destruct (nullable r1) eqn:Hn; [| now apply Hcat].
    inversion H; subst; [now apply Hcat |].
    change (String c s) with ("" ++ String c s).
    constructor; [now apply nullable_lang | auto].
  - inversion H; subst; [apply lang_alt_l | apply lang_alt_r]; auto.
  - inversion H; subst.
    change (String c (u ++ v)) with (String c u ++ v). constructor; auto.
Qed.

Lemma deriv_complete (c : ascii) (r : re) (s : string) :
  lang r (String c s) -> lang (deriv c r) s.
Proof.
  intros H. remember (String c s) as w eqn:E. revert s E.
  induction H; intros t E; simpl.
  - discriminate.
  - injection E as -> <-. rewrite H. constructor.
  - destruct u as [| d u].
    + simpl in E. subst v.
      assert (Hn : nullable r = true) by now apply nullable_lang.
      rewrite Hn. apply lang_alt_r. now apply IHlang2.
    + simpl in E. injection E as -> <-.
      assert (Hc : lang (Cat (deriv c r) s) (u ++ v))
        by (constructor; auto).
      destruct (nullable r); [now apply lang_alt_l | exact Hc].
  - apply lang_alt_l. now apply IHlang.
  - apply lang_alt_r. now apply IHlang.
  - discriminate.
  - destruct u as [| d u].
    + simpl in E. now apply IHlang2.
    + simpl in E. injection E as -> <-. constructor; auto.
Qed.

(** Matching by derivatives decides membership in the language. *)
Lemma matches_lang (r : re) (s : string) : matches r s = true <-> lang r s.
Proof.
  revert r. induction s as [| c s IH]; intros r; simpl.
  - apply nullable_lang.
  - rewrite IH. split; [apply deriv_sound | apply deriv_complete].
Qed.

Lemma lang_star_class (p : ascii -> bool) (s : string) :
  lang (Star (Class p)) s <-> all_chars p s = true.
Proof.
  split.
  - intros H. remember (Star (Class p)) as r eqn:E.
    induction H; try discriminate; [reflexivity |].
    injection E as ->. inversion H as [| ? d Hd | | | | |]; subst. simpl.
    rewrite Hd. now apply IHlang2.
  - induction s as [| c s IH]; simpl; intros H; [constructor |].
    apply andb_true_iff in H as [Hc Hs].
    change (String c s) with (String c "" ++ s).
    constructor; [now constructor | auto].
Qed.

Lemma lang_plus_class (p : ascii -> bool) (s : string) :
  lang (Plus (Class p)) s <-> s <> "" /\ all_chars p s = true.
Proof.
  unfold Plus. split.
  - intros H. inversion H as [| | ? ? u v Hu Hv | | | |]; subst.
    inversion Hu as [| ? d Hd | | | | |]; subst.
    apply lang_star_class in Hv. simpl. rewrite Hd, Hv.
    split; [discriminate | reflexivity].
  - intros [Hne Hall]. destruct s as [| c s]; [congruence |].
    simpl in Hall. apply andb_true_iff in Hall as [Hc Hs].
    change (String c s) with (String c "" ++ s).
    constructor; [now constructor | now apply lang_star_class].
Qed.

Lemma lang_any (s : string) : lang (Star Any) s.
Proof.
  apply lang_star_class. induction s; simpl; auto.
Qed.

(** An unanchored class pattern finds a character of the class. *)
Lemma test_class (p : ascii -> bool) (s : string) :
  test (Class p) s = some_char p s.
Proof.
  apply eq_true_iff_eq. unfold test. rewrite matches_lang. split.
  - intros H. inversion H as [| | ? ? u v _ Hv | | | |]; subst.
    inversion Hv as [| | ? ? u' v' Hu' _ | | | |]; subst.
    inversion Hu' as [| ? d Hd | | | | |]; subst.
    clear - Hd. simpl. induction u as [| e u IH]; simpl.
    + now rewrite Hd.
    + rewrite IH. apply orb_true_r.
  - induction s as [| c s IH]; simpl; intros H; [discriminate |].
    destruct (p c) eqn:Hc.
    + change (String c s) with ("" ++ (String c "" ++ s)).
      constructor; [constructor |].
      constructor; [now constructor | apply lang_any].
    + simpl in H. specialize (IH H).
      inversion IH as [| | ? ? u v Hu Hv | | | |]; subst.
      change (String c (u ++ v)) with ((String c "" ++ u) ++ v).
      constructor; [| assumption].
      constructor; [now constructor | assumption].
Qed.

End RegexFacts.

(* ------------------------------------------------------------------ *)
(** ** Validators *)

Lemma code_char (c : ascii) (n : nat) :
  Nat.eqb (Validation.code c) n = true -> c = ascii_of_nat n.
Proof.
  unfold Validation.code. intros H. apply Nat.eqb_eq in H.
  rewrite <- H. symmetry. apply ascii_nat_embedding.
Qed.

Lemma some_char_app (p : ascii -> bool) (u v : string) :
  some_char p (u ++ v) = some_char p u || some_char p v.
Proof.
  induction u as [| c u IH]; simpl; [reflexivity |].
  now rewrite IH, orb_assoc.
Qed.

Lemma count_chars_app (p : ascii -> bool) (u v : string) :
  count_chars p (u ++ v) = (count_chars p u + count_chars p v)%nat.
Proof.
  induction u as [| c u IH]; simpl; [reflexivity |]. rewrite IH. lia.
Qed.

Lemma email_part_clean (s : string) :
  all_chars Validation.not_space_or_at s = true ->
  count_chars is_at s = 0%nat /\ some_char is_space s = false.
Proof.
  induction s as [| c s IH]; simpl; [auto |]. intros H.
  apply andb_true_iff in H as [Hc Hs]. destruct (IH Hs) as [-> ->].
  unfold Validation.not_space_or_at in Hc. apply negb_true_iff in Hc.
  apply orb_false_iff in Hc as [Hsp Hat].
  unfold is_at. unfold Validation.code in Hat. now rewrite Hsp, Hat.
Qed.

(** X21.  [isValidEmail] accepts exactly the strings made of three parts
    joined by one [@] and one dot, each part non-empty and free of white
    space and of [@]; so an accepted address has no blank and exactly one
    [@], and its last dot is neither the first nor the last character after
    the [@]. *)
Theorem isValidEmail_shape (email : string) (Hascii : ascii_only email) :
  (Validation.isValidEmail email = true <->
   exists name domain tld,
     email = name ++ "@" ++ domain ++ "." ++ tld
     /\ email_part name /\ email_part domain /\ email_part tld)
  /\ (Validation.isValidEmail email = true ->
      count_chars is_at email = 1%nat /\ some_char is_space email = false).
Proof.
  assert (Hiff : Validation.isValidEmail email = true <->
            exists name domain tld,
              email = name ++ "@" ++ domain ++ "." ++ tld
              /\ email_part name /\ email_part domain /\ email_part tld).
  { unfold Validation.isValidEmail, Validation.emailRegex.
    rewrite matches_lang. split.
    - intros H.
      inversion H as [| | ? ? a r1 Ha H1 | | | |]; subst.
      inversion H1 as [| | ? ? x r2 Hx H2 | | | |]; subst.
      inversion H2 as [| | ? ? b r3 Hb H3 | | | |]; subst.
      inversion H3 as [| | ? ? y c Hy Hc | | | |]; subst.
      inversion Hx as [| ? cx Hcx | | | | |]; subst.
      inversion Hy as [| ? cy Hcy | | | | |]; subst.
      unfold Validation.one_of in Hcx, Hcy. simpl in Hcx, Hcy.
      rewrite orb_false_r in Hcx, Hcy.
      apply code_char in Hcx, Hcy. subst cx cy.
      apply lang_plus_class in Ha, Hb, Hc.
      exists a, b, c. auto.
    - intros (a & b & c & -> & Ha & Hb & Hc).
      apply lang_plus_class in Ha, Hb, Hc.
      repeat (constructor; auto). }
  split; [exact Hiff |].
  intros H. apply Hiff in H as (a & b & c & -> & [_ Ha] & [_ Hb] & [_ Hc]).
  apply email_part_clean in Ha as [Ha1 Ha2], Hb as [Hb1 Hb2],
                              Hc as [Hc1 Hc2].
  rewrite !count_chars_app, !some_char_app, Ha1, Ha2, Hb1, Hb2, Hc1, Hc2.
  split; reflexivity.
Qed.

Lemma isValidEmail_shape_witness :
  Validation.isValidEmail "ana.ruiz@sgad.com" = true.
Proof.
  apply (proj1 (isValidEmail_shape "ana.ruiz@sgad.com"
                  ltac:(repeat constructor))).
  exists "ana.ruiz", "sgad", "com".
  repeat split; discriminate.
Defined.

(** X22.  A password is valid iff it has at least eight characters, a
    lower-case letter, an upper-case letter and a digit; the special
    character earns a point and a remark but is not required. *)
Theorem validatePasswordStrength_validity
    (password : string) (Hascii : ascii_only password) :
  Validation.isValid (Validation.validatePasswordStrength password) = true
  <-> (8 <= String.length password)%nat
      /\ some_char Validation.is_lower password = true
      /\ some_char Validation.is_upper password = true
      /\ some_char Validation.is_digit password = true.
Proof.
  assert (Hlong : negb (Nat.ltb (String.length password) 8) = true
                  <-> (8 <= String.length password)%nat).
  { rewrite negb_true_iff, Nat.ltb_ge. reflexivity. }
  rewrite <- Hlong. clear Hlong.
  unfold Validation.validatePasswordStrength.
  rewrite !test_class.
  destruct (negb (Nat.ltb (String.length password) 8)),
           (some_char Validation.is_lower password),
           (some_char Validation.is_upper password),
           (some_char Validation.is_digit password),
           (some_char Validation.is_special password);
    cbn; intuition congruence.
Qed.

(** X23.  The score is the number of the five criteria met, the remarks are
    one per criterion missed, and the strength follows the score: up to 2
    weak, 3 medium, 4 strong, 5 very strong.  A valid password is at least
    strong; the converse fails, since the special character can stand in for
    a required criterion. *)
Theorem validatePasswordStrength_score
    (password : string) (Hascii : ascii_only password) :
  let r := Validation.validatePasswordStrength password in
  Validation.score r
  = points (negb (Nat.ltb (String.length password) 8))
    + points (some_char Validation.is_lower password)
    + points (some_char Validation.is_upper password)
    + points (some_char Validation.is_digit password)
    + points (some_char Validation.is_special password)
  /\ Z.of_nat (List.length (Validation.feedback r)) = 5 - Validation.score r
  /\ (Validation.strength r = Some "muy fuerte" <-> Validation.score r = 5)
  /\ (Validation.strength r = Some "fuerte" <-> Validation.score r = 4)
  /\ (Validation.strength r = Some "media" <-> Validation.score r = 3)
  /\ (Validation.strength r = Some "débil" <-> Validation.score r <= 2)
  /\ (Validation.isValid r = true -> 4 <= Validation.score r)
  /\ (exists p,
         ascii_only p
         /\ Validation.isValid (Validation.validatePasswordStrength p) = false
         /\ Validation.strength (Validation.validatePasswordStrength p)
            = Some "fuerte").
Proof.
  intros r.
  assert (Hr : r = Validation.validatePasswordStrength password)
    by reflexivity.
  clearbody r.
  assert (Hex : exists p,
             ascii_only p
             /\ Validation.isValid (Validation.validatePasswordStrength p)
                = false
             /\ Validation.strength (Validation.validatePasswordStrength p)
                = Some "fuerte")
    by (exists "Arbitros!!"; split; [repeat constructor | split; reflexivity]).
  unfold Validation.validatePasswordStrength in Hr.
  rewrite !test_class in Hr.
  destruct (negb (Nat.ltb (String.length password) 8)),
           (some_char Validation.is_lower password),
           (some_char Validation.is_upper password),
           (some_char Validation.is_digit password),
           (some_char Validation.is_special password);
    subst r; cbn;
    repeat match goal with |- _ /\ _ => split end;
    try exact Hex; try reflexivity;
    try (split; intros; try reflexivity; try discriminate; lia);
    try (intros; lia); try discriminate.
Qed.

Lemma validatePasswordStrength_validity_witness :
  Validation.isValid (Validation.validatePasswordStrength "Arbitro2024") = true.
Proof.
  apply (proj2 (validatePasswordStrength_validity "Arbitro2024"
                  ltac:(repeat constructor))).
  repeat split. cbn. lia.
Defined.

Lemma validatePasswordStrength_score_witness :
  Validation.isValid (Validation.validatePasswordStrength "Arbitros!!") = false
  /\ Validation.strength (Validation.validatePasswordStrength "Arbitros!!")
     = Some "fuerte".
Proof.
  split; [reflexivity |].
  apply (proj2 (proj1 (proj2 (proj2 (proj2
           (validatePasswordStrength_score "Arbitros!!"
              ltac:(repeat constructor))))))).
  reflexivity.
Defined.

(* ------------------------------------------------------------------ *)
(** ** sanitizeText *)

Lemma remove_angle_brackets_clean (s : string) :
  some_char is_angle (Validation.remove_angle_brackets s) = false.
Proof.
  induction s as [| c s IH]; [reflexivity |].
  cbn [Validation.remove_angle_brackets].
  destruct (Validation.one_of [60%nat; 62%nat] c) eqn:Hc; [exact IH |].
  cbn [some_char]. unfold is_angle at 1. now rewrite Hc.
Qed.

Lemma remove_angle_brackets_sub (p : ascii -> bool) (s : string) :
  some_char p (Validation.remove_angle_brackets s) = true ->
  some_char p s = true.
Proof.
  induction s as [| c s IH]; [auto |].
  cbn [Validation.remove_angle_brackets].
  destruct (Validation.one_of [60%nat; 62%nat] c); cbn [some_char]; intros H.
  - rewrite IH by assumption. apply orb_true_r.
  - apply orb_true_iff in H as [-> | H]; [reflexivity |].
    rewrite IH by assumption. apply orb_true_r.
Qed.

Lemma remove_javascript_sub (p : ascii -> bool) (k : nat) (s : string) :
  some_char p (Validation.remove_javascript_from k s) = true ->
  some_char p s = true.
Proof.
  revert k. induction s as [| c s IH]; intros k; [destruct k; auto |].
  cbn [Validation.remove_javascript_from].
  destruct k as [| k].
  - destruct (Validation.starts_with_ci "javascript:" (String c s)).
    + intros H. apply IH in H. simpl. rewrite H. apply orb_true_r.
    + simpl. intros H. apply orb_true_iff in H as [-> | H]; [reflexivity |].
      apply IH in H. rewrite H. apply orb_true_r.
  - intros H. apply IH in H. simpl. rewrite H. apply orb_true_r.
Qed.

Lemma remove_on_handlers_sub (p : ascii -> bool) (k : nat) (s : string) :
  some_char p (Validation.remove_on_handlers_from k s) = true ->
  some_char p s = true.
Proof.
  revert k. induction s as [| c s IH]; intros k; [destruct k; auto |].
  cbn [Validation.remove_on_handlers_from].
  destruct k as [| k].
  - destruct (Validation.on_handler_match (String c s)).
    + intros H. apply IH in H. simpl. rewrite H. apply orb_true_r.
    + simpl. intros H. apply orb_true_iff in H as [-> | H]; [reflexivity |].
      apply IH in H. rewrite H. apply orb_true_r.
  - intros H. apply IH in H. simpl. rewrite H. apply orb_true_r.
Qed.

Lemma trim_sub (p : ascii -> bool) (s : string) :
  some_char p (trim s) = true -> some_char p s = true.
Proof.
  unfold trim. intros H.
  assert (Hend : forall t, some_char p (trim_end t) = true ->
                           some_char p t = true).
  { induction t as [| c t IHt]; simpl; [auto |].
    destruct (trim_end t) as [| d r].
    - destruct (is_space c); simpl; [discriminate |].
      rewrite orb_false_r. now intros ->.
    - simpl. intros Ht. apply orb_true_iff in Ht as [-> | Ht]; [reflexivity |].
      simpl in IHt. rewrite IHt by assumption. apply orb_true_r. }
  apply Hend in H. clear Hend.
  induction s as [| c s IH]; simpl in *; [auto |].
  destruct (is_space c); [| exact H].
  rewrite IH by assumption. apply orb_true_r.
Qed.

Lemma subsequence_refl (s : string) : subsequence s s.
Proof. induction s; constructor; assumption. Qed.

Lemma subsequence_trans (a b c : string) :
  subsequence a b -> subsequence b c -> subsequence a c.
Proof.
  intros Hab Hbc. revert a Hab.
  induction Hbc as [| x b c Hbc IH | x b c Hbc IH]; intros a Hab.
  - exact Hab.
  - inversion Hab; subst.
    + apply subsequence_keep. now apply IH.
    + apply subsequence_drop. now apply IH.
  - apply subsequence_drop. now apply IH.
Qed.

Lemma trim_start_subsequence (s : string) : subsequence (trim_start s) s.
Proof.
  induction s as [| c s IH]; [constructor |].
  simpl. destruct (is_space c).
  - now apply subsequence_drop.
  - apply subsequence_refl.
Qed.

Lemma trim_end_subsequence (s : string) : subsequence (trim_end s) s.
Proof.
  induction s as [| c s IH]; [constructor |].
  simpl. destruct (trim_end s) as [| d r].
  - destruct (is_space c).
    + now apply subsequence_drop.
    + now apply subsequence_keep.
  - now apply subsequence_keep.
Qed.

Lemma remove_angle_brackets_subsequence (s : string) :
  subsequence (Validation.remove_angle_brackets s) s.
Proof.
  induction s as [| c s IH]; [constructor |].
  cbn [Validation.remove_angle_brackets].
  destruct (Validation.one_of [60%nat; 62%nat] c); now constructor.
Qed.

Lemma remove_javascript_subsequence (k : nat) (s : string) :
  subsequence (Validation.remove_javascript_from k s) s.
Proof.
  revert k. induction s as [| c s IH]; intros k; [constructor |].
  cbn [Validation.remove_javascript_from].
  destruct k as [| k]; [| now constructor].
  destruct (Validation.starts_with_ci "javascript:" (String c s));
    now constructor.
Qed.

Lemma remove_on_handlers_subsequence (k : nat) (s : string) :
  subsequence (Validation.remove_on_handlers_from k s) s.
Proof.
  revert k. induction s as [| c s IH]; intros k; [constructor |].
  cbn [Validation.remove_on_handlers_from].
  destruct k as [| k]; [| now constructor].
  destruct (Validation.on_handler_match (String c s)); now constructor.
Qed.

(** X24.  [sanitizeText] only deletes characters: its result is the input
    with some characters taken out and the others left in their order.  It
    deletes every [<] and [>]: no angle bracket is left, whatever the input;
    anything that is not a string becomes the empty string.  The other two
    removals are single passes from the left, so what they remove can be
    left behind by nested input: [javascript:] and an [on...=] handler
    survive in the two examples. *)
Theorem sanitizeText_output (text : value) :
  some_char is_angle (Validation.sanitizeText text) = false
  /\ (forall s,
         text = JStr s -> subsequence (Validation.sanitizeText text) s)
  /\ (forall s p,
         text = JStr s ->
         some_char p (Validation.sanitizeText text) = true ->
         some_char p s = true)
  /\ ((forall s, text <> JStr s) -> Validation.sanitizeText text = "")
  /\ Validation.sanitizeText (JStr "  javajavascript:script:alert(1) ")
     = "javascript:alert(1)"
  /\ Validation.sanitizeText (JStr "<a oonclick=nclick=go()>")
     = "a onclick=go()".
Proof.
  split; [| split; [| split; [| split; [| split; reflexivity]]]].
  - destruct text as [| | | | s |]; try reflexivity.
    unfold Validation.sanitizeText.
    destruct (some_char is_angle _) eqn:H; [| reflexivity].
    apply remove_on_handlers_sub, remove_javascript_sub in H.
    now rewrite remove_angle_brackets_clean in H.
  - intros s ->. unfold Validation.sanitizeText, trim.
    eapply subsequence_trans; [apply remove_on_handlers_subsequence |].
    eapply subsequence_trans; [apply remove_javascript_subsequence |].
    eapply subsequence_trans; [apply remove_angle_brackets_subsequence |].
    eapply subsequence_trans; [apply trim_end_subsequence |].
    apply trim_start_subsequence.
  - intros s p -> H. unfold Validation.sanitizeText in H.
    now apply remove_on_handlers_sub, remove_javascript_sub,
      remove_angle_brackets_sub, trim_sub in H.
  - intros Hno. destruct text; try reflexivity. now elim (Hno s).
Qed.

(* ------------------------------------------------------------------ *)
(** ** The token generator script *)

Lemma indexOf_first (pre post : list string) (name : string) :
  ~ In name pre ->
  GenerateToken.indexOf (pre ++ name :: post) name = Some (List.length pre).
Proof.
  induction pre as [| a pre IH]; simpl; intros Hnot.
  - now rewrite String.eqb_refl.
  - destruct (String.eqb_spec a name) as [-> | _]; [tauto |].
    rewrite IH by tauto. reflexivity.
Qed.

Lemma indexOf_absent (args : list string) (name : string) :
  ~ In name args -> GenerateToken.indexOf args name = None.
Proof.
  induction args as [| a args IH]; simpl; intros Hnot; [reflexivity |].
  destruct (String.eqb_spec a name) as [-> | _]; [tauto |].
  rewrite IH by tauto. reflexivity.
Qed.

(** X25.  [getArg] reads the argument that follows the first occurrence of
    a flag, whatever it is (another flag included); a flag in last position
    reads [undefined] and an absent flag [null], and both fall back to the
    default behind [||], as an empty value does. *)
Theorem getArg_reads_what_follows
    (pre post : list string) (name v : string) (Hfirst : ~ In name pre) :
  GenerateToken.getArg (pre ++ name :: v :: post) name = JStr v
  /\ GenerateToken.getArg (pre ++ [name]) name = JUndefined
  /\ GenerateToken.getArg pre name = JNull
  /\ (forall fallback,
         truthy fallback = true ->
         or_else (GenerateToken.getArg (pre ++ [name]) name) fallback = fallback
         /\ or_else (GenerateToken.getArg pre name) fallback = fallback
         /\ or_else (GenerateToken.getArg (pre ++ name :: "" :: post) name)
                    fallback = fallback).
Proof.
  assert (Hnth : forall (rest : list string),
            nth_error (pre ++ name :: rest) (List.length pre + 1)
            = nth_error rest 0).
  { intros rest. rewrite nth_error_app2 by lia.
    replace (List.length pre + 1 - List.length pre)%nat with 1%nat by lia.
    reflexivity. }
  assert (H1 : forall w, GenerateToken.getArg (pre ++ name :: w :: post) name
                         = JStr w).
  { intros w. unfold GenerateToken.getArg.
    now rewrite indexOf_first, Hnth by assumption. }
  assert (H2 : GenerateToken.getArg (pre ++ [name]) name = JUndefined).
  { unfold GenerateToken.getArg.
    now rewrite indexOf_first, Hnth by assumption. }
  assert (H3 : GenerateToken.getArg pre name = JNull).
  { unfold GenerateToken.getArg. now rewrite indexOf_absent. }
  repeat split; auto.
  - now rewrite H2.
  - now rewrite H3.
  - now rewrite H1.
Qed.

Lemma getArg_reads_what_follows_witness :
  GenerateToken.getArg ["--email"; "--role"; "presidente"] "--email"
  = JStr "--role".
Proof.
  apply (proj1 (getArg_reads_what_follows
                  [] ["presidente"] "--email" "--role" (fun H => H))).
Defined.

Section GeneratorScript.

Variable env_JWT_SECRET : option string.
Variable env_JWT_EXPIRES_IN : option string.
Variable timespan : string -> option Z.
Variable decode : string -> Jwt.token.

Local Abbreviation main :=
  (GenerateToken.main env_JWT_SECRET env_JWT_EXPIRES_IN timespan decode).
Local Abbreviation JWT_EXPIRES_IN :=
  (GenerateToken.JWT_EXPIRES_IN env_JWT_EXPIRES_IN).

(** X26.  [--expiresIn] does not reach the token.  Whatever the arguments,
    a token the script generates is signed under the secret read at load
    time and expires after the lifetime read at load time; the assignment to
    [process.env.JWT_EXPIRES_IN] around the call comes too late for the
    constant [generateToken] uses.  Its claims are the flag values or the
    defaults ['1'], ['test@sgad.com'], ['arbitro']. *)
Theorem generator_ignores_expiresIn
    (args : list string) (now : Z) (t : Jwt.token) (env' : option string)
    (Hrun : main args now = (GenerateToken.Generated t, env')) :
  exists seconds payload,
    timespan JWT_EXPIRES_IN = Some seconds
    /\ t = Jwt.Signed (GenerateToken.JWT_SECRET env_JWT_SECRET) payload
    /\ get payload "exp" = JNum (now / 1000 + seconds)
    /\ get payload "iat" = JNum (now / 1000)
    /\ get payload "userId"
       = or_else (GenerateToken.getArg args "--userId") (JStr "1")
    /\ get payload "email"
       = or_else (GenerateToken.getArg args "--email") (JStr "test@sgad.com")
    /\ get payload "role"
       = or_else (GenerateToken.getArg args "--role") (JStr "arbitro").
Proof.
  revert Hrun. unfold GenerateToken.main.
  destruct (_ || _ || _); [discriminate |].
  destruct (GenerateToken.hasFlag args "--verify").
  { destruct (negb _); [discriminate |].
    unfold GenerateToken.verifyToken. destruct (Jwt.verify _ _ _ _);
      discriminate. }
  destruct (GenerateToken.hasFlag args "--decode").
  { destruct (negb _); [discriminate |].
    unfold GenerateToken.decodeToken. destruct (decode _); discriminate. }
  cbv zeta.
  assert (Hstr : forall name d,
            exists s, or_else (GenerateToken.getArg args name) (JStr d)
                      = JStr s).
  { intros name d. unfold GenerateToken.getArg, or_else.
    destruct (GenerateToken.indexOf args name) as [i |]; [| cbn; eauto].
    destruct (nth_error args (i + 1)) as [v |]; [| cbn; eauto].
    destruct (truthy (JStr v)); eauto. }
  destruct (Hstr "--userId" "1") as [uid Huid].
  destruct (Hstr "--email" "test@sgad.com") as [em Hem].
  destruct (Hstr "--role" "arbitro") as [ro Hro].
  rewrite Huid, Hem, Hro.
  set (payload := if truthy (or_else (GenerateToken.getArg args "--refereeId")
                               JNull)
                  then set _ "refereeId" _ else _).
  remember (GenerateToken.generateToken env_JWT_SECRET env_JWT_EXPIRES_IN
              timespan payload now) as o eqn:Ho.
  assert (Hgen : o = GenerateToken.Generated t ->
            exists seconds p,
              timespan JWT_EXPIRES_IN = Some seconds
              /\ t = Jwt.Signed (GenerateToken.JWT_SECRET env_JWT_SECRET) p
              /\ get p "exp" = JNum (now / 1000 + seconds)
              /\ get p "iat" = JNum (now / 1000)
              /\ get p "userId" = JStr uid
              /\ get p "email" = JStr em
              /\ get p "role" = JStr ro).
  { intros ->. symmetry in Ho. unfold GenerateToken.generateToken in Ho.
    fold JWT_EXPIRES_IN in Ho.
    destruct (timespan JWT_EXPIRES_IN) as [seconds |]; [| discriminate].
    injection Ho as <-. exists seconds. eexists.
    split; [reflexivity |]. split; [reflexivity |].
    assert (Hts : match or_else (get payload "iat") (JNum (now / 1000)) with
                  | JNum ts => ts
                  | _ => now / 1000
                  end = now / 1000).
    { subst payload. destruct (truthy (or_else _ JNull)); cbn;
        unfold or_else; simpl; now destruct (now / 1000 =? 0). }
    rewrite Hts. cbn [Jwt.expiresIn Jwt.audience Jwt.issuer].
    subst payload. destruct (truthy (or_else _ JNull));
      repeat split; apply get_own, own_json_roundtrip; reflexivity. }
  clear Ho.
  destruct (truthy (GenerateToken.getArg args "--expiresIn")).
  - destruct o; intros [= Ht _]; subst; now apply Hgen.
  - intros [= Ht _]. now apply Hgen.
Qed.

End GeneratorScript.

Lemma generator_ignores_expiresIn_witness :
  exists payload,
    fst (GenerateToken.main None None
           (fun s => if String.eqb s "24h" then Some 86400 else Some 604800)
           SampleHttp.decode
           ["--email"; "ana@sgad.com"; "--expiresIn"; "7d"] Sample.t0)
    = GenerateToken.Generated
        (Jwt.Signed "default_secret_for_development" payload)
    /\ get payload "exp" = JNum (Sample.t0 / 1000 + 86400).
Proof.
  destruct (generator_ignores_expiresIn None None
              (fun s => if String.eqb s "24h" then Some 86400 else Some 604800)
              SampleHttp.decode
              ["--email"; "ana@sgad.com"; "--expiresIn"; "7d"] Sample.t0
              _ _ eq_refl)
    as (seconds & payload & Hs & Ht & Hexp & _).
  injection Hs as <-. injection Ht as <-.
  eexists. split; [reflexivity | exact Hexp].
Defined.

(* ------------------------------------------------------------------ *)
(** ** Renewal *)

Section Renewal.

Variable JWT_SECRET : string.
Variable JWT_EXPIRES_IN : string.
Variable lifetime : Z.
Variable decode : string -> Jwt.token.

Local Abbreviation generateJWT := (generateJWT JWT_SECRET lifetime).
Local Abbreviation verifyToken := (verifyToken JWT_SECRET).
Local Abbreviation refreshToken :=
  (refreshToken JWT_SECRET JWT_EXPIRES_IN lifetime).

(** X27.  Renewal works.  A token signed under the secret, with no
    not-before claim pending, however long expired, whose subject is still
    active, is exchanged by [refreshToken] for a token that [verifyToken]
    accepts at once, to the Principal of that subject, provided the lifetime
    is positive and the pool takes the two queries. *)
Theorem refreshToken_then_verifyToken
    (payload : object) (now : Z) (db : Db) (u : user_row)
    (Hq0 : query_ok 0 db) (Hq1 : query_ok 1 db) (Hlife : 0 < lifetime)
    (Hnbf : not_before_passed payload now = true)
    (Hfind : find (by_id_active (get payload "userId")) (users db) = Some u) :
  exists r,
    fst (refreshToken (Jwt.Signed JWT_SECRET payload) now db) = Return r
    /\ fst (verifyToken (refresh_token r) now
              (snd (refreshToken (Jwt.Signed JWT_SECRET payload) now db)))
       = Return (mk_verify_result true (verify_principal u) true).
Proof.
  exists (mk_refresh_result true (generateJWT (row_by_id u) now)
            JWT_EXPIRES_IN).
  unfold query_ok in Hq0, Hq1.
  split.
  - now rewrite refreshToken_cases, Jwt_verify_ignoring_expiry, Hq0, Hfind.
  - rewrite refreshToken_state, Jwt_verify_ignoring_expiry by assumption.
    cbn [refresh_token].
    destruct (generateJWT_claims JWT_SECRET lifetime (row_by_id u) now)
      as (p & -> & _ & Hexp & _ & Hid & _ & Hnone).
    pose proof (by_id_active_found _ _ _ Hfind) as (_ & Hidu & Hdata & _).
    cbn in Hid. rewrite Hidu in Hid. specialize (Hid Hdata).
    assert (Hpassed : not_before_passed p now = true)
      by (unfold not_before_passed; now rewrite Hnone).
    rewrite verifyToken_cases.
    rewrite (Jwt_verify_before_expiry _ _ _ _ Hpassed Hexp) by lia.
    cbn [users faults].
    assert (Hnext : nth 0 (tl (faults db)) false = false).
    { destruct (faults db) as [| f later]; [reflexivity | exact Hq1]. }
    now rewrite Hnext, Hid, Hfind.
Qed.

(** X28.  POST /auth/refresh answers 200 with the renewed token to a well
    signed token of an active subject, expired or not, that has no
    not-before claim pending; 401, without a query, to a well signed token
    whose not-before claim is pending; and 401 to every request without a
    Bearer header. *)
Theorem refresh_controller_renews
    (req : request) (now : Z) (db : Db) :
  (forall t payload u,
      http_authorization req = Some ("Bearer " ++ t) ->
      decode t = Jwt.Signed JWT_SECRET payload ->
      not_before_passed payload now = true ->
      query_ok 0 db ->
      find (by_id_active (get payload "userId")) (users db) = Some u ->
      fst (AuthController.refreshToken JWT_SECRET JWT_EXPIRES_IN lifetime
             decode req now db)
      = Return
          (mk_answer 200
             [ ("success", Val (JBool true));
               ("message", Val (JStr "Token refrescado exitosamente"));
               ("data", Obj
                  [ ("token", Tok (generateJWT (row_by_id u) now));
                    ("expiresIn", Val (JStr JWT_EXPIRES_IN)) ]) ]))
  /\ (forall t payload,
         http_authorization req = Some ("Bearer " ++ t) ->
         decode t = Jwt.Signed JWT_SECRET payload ->
         not_before_passed payload now = false ->
         AuthController.refreshToken JWT_SECRET JWT_EXPIRES_IN lifetime
           decode req now db
         = (Return
              (mk_answer 401
                 [ ("success", Val (JBool false));
                   ("error", Val (JStr "Error al refrescar token"));
                   ("message", Val (JStr "Error al refrescar el token")) ]),
            db))
  /\ ((forall t, http_authorization req <> Some ("Bearer " ++ t)) ->
      AuthController.refreshToken JWT_SECRET JWT_EXPIRES_IN lifetime
        decode req now db
      = (Return
           (mk_answer 401
              [ ("success", Val (JBool false));
                ("error", Val (JStr "Token no proporcionado")) ]),
         db)).
Proof.
  split; [| split].
  - intros t payload u Hh Htok Hnbf Hq Hfind.
    unfold AuthController.refreshToken, try_catch, bind. rewrite Hh.
    replace (negb (truthy (JStr ("Bearer " ++ t)))
             || negb (startsWith ("Bearer " ++ t) "Bearer ")) with false
      by (symmetry; apply bearer_header; eauto).
    cbn [substring_from append]. rewrite Htok.
    pose proof (refreshToken_cases JWT_SECRET JWT_EXPIRES_IN lifetime
                  (Jwt.Signed JWT_SECRET payload) now db) as Hc.
    unfold query_ok in Hq.
    rewrite Jwt_verify_ignoring_expiry, Hq, Hfind in Hc by assumption.
    destruct (refreshToken (Jwt.Signed JWT_SECRET payload) now db)
      as [[r | e] db']; cbn [fst] in Hc; [| discriminate].
    injection Hc as ->. reflexivity.
  - intros t payload Hh Htok Hnbf.
    unfold AuthController.refreshToken, try_catch, bind. rewrite Hh.
    replace (negb (truthy (JStr ("Bearer " ++ t)))
             || negb (startsWith ("Bearer " ++ t) "Bearer ")) with false
      by (symmetry; apply bearer_header; eauto).
    cbn [substring_from append]. rewrite Htok.
    pose proof (refreshToken_cases JWT_SECRET JWT_EXPIRES_IN lifetime
                  (Jwt.Signed JWT_SECRET payload) now db) as Hc.
    pose proof (refreshToken_state JWT_SECRET JWT_EXPIRES_IN lifetime
                  (Jwt.Signed JWT_SECRET payload) now db) as Hs.
    destruct (Jwt_verify_not_before_pending JWT_SECRET payload true now Hnbf)
      as [err Herr].
    rewrite Herr in Hc, Hs.
    destruct (refreshToken (Jwt.Signed JWT_SECRET payload) now db)
      as [[r | e] db']; cbn [fst snd] in Hc, Hs; [discriminate |].
    injection Hc as ->. subst db'. reflexivity.
  - intros Hno. unfold AuthController.refreshToken, try_catch.
    destruct (http_authorization req) as [h |]; [| reflexivity].
    destruct (negb (truthy (JStr h)) || negb (startsWith h "Bearer ")) eqn:Hb;
      [reflexivity |].
    apply bearer_header in Hb as [t ->]. now elim (Hno t).
Qed.

End Renewal.

Lemma refresh_controller_renews_witness :
  fst (AuthController.refreshToken Sample.secret "24h" 86400
         SampleHttp.decode
         (SampleHttp.request_with (Some "Bearer stale") [])
         (Sample.t0 + 604800000) (Sample.db true []))
  = Return
      (mk_answer 200
         [ ("success", Val (JBool true));
           ("message", Val (JStr "Token refrescado exitosamente"));
           ("data", Obj
              [ ("token",
                 Tok (Sample.issue (row_by_id Sample.ana)
                        (Sample.t0 + 604800000)));
                ("expiresIn", Val (JStr "24h")) ]) ])
  /\ fst (AuthController.refreshToken Sample.secret "24h" 86400
            SampleHttp.decode_early
            (SampleHttp.request_with (Some "Bearer early") [])
            (Sample.t0 + 60000) (Sample.db true []))
     = Return
         (mk_answer 401
            [ ("success", Val (JBool false));
              ("error", Val (JStr "Error al refrescar token"));
              ("message", Val (JStr "Error al refrescar el token")) ]).
Proof.
  split.
  - apply (proj1 (refresh_controller_renews Sample.secret "24h" 86400
                    SampleHttp.decode
                    (SampleHttp.request_with (Some "Bearer stale") [])
                    (Sample.t0 + 604800000) (Sample.db true []))
                 "stale" SampleHttp.stale_payload Sample.ana
                 eq_refl eq_refl eq_refl eq_refl eq_refl).
  - apply (f_equal fst
             (proj1 (proj2 (refresh_controller_renews Sample.secret "24h" 86400
                              SampleHttp.decode_early
                              (SampleHttp.request_with (Some "Bearer early") [])
                              (Sample.t0 + 60000) (Sample.db true [])))
                    "early" SampleHttp.early_payload
                    eq_refl eq_refl eq_refl)).
Defined.

Lemma refreshToken_then_verifyToken_witness :
  exists r,
    fst (Sample.refresh (Jwt.Signed Sample.secret SampleHttp.stale_payload)
           (Sample.t0 + 604800000) (Sample.db true []))
    = Return r
    /\ fst (Sample.verify (refresh_token r) (Sample.t0 + 604800000)
              (snd (Sample.refresh
                      (Jwt.Signed Sample.secret SampleHttp.stale_payload)
                      (Sample.t0 + 604800000) (Sample.db true []))))
       = Return (mk_verify_result true (verify_principal Sample.ana) true).
Proof.
  apply (refreshToken_then_verifyToken Sample.secret "24h" 86400
           SampleHttp.stale_payload (Sample.t0 + 604800000)
           (Sample.db true []) Sample.ana
           eq_refl eq_refl eq_refl eq_refl eq_refl).
Defined.
